(** * athena-express, [lib/helpers.js]: a shallow embedding and its properties

    The file follows the source function by function.

    - Strings are sequences of code units below 256, written as [string].
    - Plain JavaScript objects are association lists in property order
      ([Obj]), because [Object.keys] is used positionally by the source.
    - The two remote collaborators (the query engine and the object store)
      are not part of the repository.  A poll or submit loop is run against
      a finite script of the replies the engine gives to successive
      requests; the result is the trace of requests and timers together
      with the state of the returned promise.  Result queries on a finished
      execution are answered by a function of the request.  *)

From Stdlib Require Import List String Ascii ZArith NArith Bool Lia.
From Stdlib Require DecimalString DecimalNat.
Import ListNotations.
Open Scope string_scope.
Open Scope Z_scope.

(** ** Errors, promises, requests *)

(** An error object thrown by a client; [err.code] may be undefined. *)
Record jserror : Type := mkError {
  code : option string;
  message : string
}.

(** A settled promise. *)
Inductive Promise (A : Type) : Type :=
| Fulfilled (a : A)
| RejectedP (e : jserror).
Arguments Fulfilled {A} a.
Arguments RejectedP {A} e.

Record EncryptionConfiguration : Type := {
  EncryptionOption : string;
  KmsKey : option string
}.

Record ResultConfiguration : Type := {
  OutputLocation : option string;
  EncryptionConfiguration_ : option EncryptionConfiguration
}.

Record QueryExecutionContext : Type := {
  Database : option string;
  Catalog : option string
}.

Record StartQueryExecutionInput : Type := {
  QueryString : string;
  WorkGroup : option string;
  ResultConfiguration_ : ResultConfiguration;
  QueryExecutionContext_ : QueryExecutionContext;
  ExecutionParameters : option (list string)
}.

Record GetQueryResultsInput : Type := {
  gqr_QueryExecutionId : string;
  MaxResults : Z;
  NextToken : option string
}.

Record S3Params : Type := {
  Bucket : option string;
  Key : string
}.

Inductive command : Type :=
| StartQueryExecutionCommand (p : StartQueryExecutionInput)
| GetQueryExecutionCommand (QueryExecutionId : string)
| GetQueryResultsCommand (p : GetQueryResultsInput)
| GetObjectCommand (p : S3Params).

(** What a run does, in order: a request sent to a client, or a timer armed
    with [setTimeout]. *)
Inductive event : Type :=
| Send (c : command)
| SetTimeout (ms : Z).

(** Whatever is thrown, or handed to [reject]: the error object of a
    client, an error raised by the runtime, or (in the poller) the plain
    value of [Status.StateChangeReason]. *)
Inductive thrown : Type :=
| ErrorObject (e : jserror)
| SyntaxError
| TypeError
| Reason (StateChangeReason : option string).

(** The outcome of a synchronous call. *)
Inductive result (A : Type) : Type :=
| Ok (a : A)
| Throw (t : thrown).
Arguments Ok {A} a.
Arguments Throw {A} t.

(** The state a promise made by this module ends in: [Pending] is a promise
    that is not settled, either because the engine script is used up and
    the loop is still waiting, or because nothing will ever settle it. *)
Inductive settled (A : Type) : Type :=
| Resolved (a : A)
| Rejected (t : thrown)
| Pending.
Arguments Resolved {A} a.
Arguments Rejected {A} t.
Arguments Pending {A}.

(** The options object of the source ([config], also [params.config]). *)
Record Config : Type := {
  sql : string;
  workgroup : option string;
  s3Bucket : option string;
  db : option string;
  catalog : option string;
  parameters : option (list string);
  encryption : option EncryptionConfiguration;
  retry : Z;
  QueryExecutionId : string;
  pagination : Z;
  cfg_NextToken : option string;
  formatJson : bool;
  includeMetadata : bool;
  ignoreEmpty : bool
}.

(** ** [isCommonAthenaError] *)

Definition opt_string_eqb (a : option string) (b : string) : bool :=
  match a with
  | Some s => String.eqb s b
  | None => false
  end.

Definition isCommonAthenaError (err : option string) : bool :=
  if (opt_string_eqb err "TooManyRequestsException" ||
      opt_string_eqb err "ThrottlingException" ||
      opt_string_eqb err "NetworkingError" ||
      opt_string_eqb err "UnknownEndpoint")%bool
  then true
  else false.

(** ** [startQueryExecution] *)

Record StartQueryExecutionOutput : Type := {
  sqe_QueryExecutionId : string
}.

Definition startParams (config : Config) : StartQueryExecutionInput :=
  {| QueryString := sql config;
     WorkGroup := workgroup config;
     ResultConfiguration_ :=
       {| OutputLocation := s3Bucket config;
          EncryptionConfiguration_ := encryption config |};
     QueryExecutionContext_ :=
       {| Database := db config; Catalog := catalog config |};
     ExecutionParameters := parameters config |}.

(** One entry of the script per call of [athenaClient.send]. *)
Fixpoint startQueryExecutionRecursively (params : StartQueryExecutionInput)
    (script : list (Promise StartQueryExecutionOutput))
  : list event * settled string :=
  match script with
  | [] => ([], Pending)
  | reply :: script' =>
      match reply with
      | Fulfilled data =>
          ([Send (StartQueryExecutionCommand params)],
           Resolved (sqe_QueryExecutionId data))
      | RejectedP err =>
          if isCommonAthenaError (code err) then
            let '(tr, out) := startQueryExecutionRecursively params script' in
            (Send (StartQueryExecutionCommand params) :: SetTimeout 2000 :: tr,
             out)
          else
            ([Send (StartQueryExecutionCommand params)],
             Rejected (ErrorObject err))
      end
  end.

Definition startQueryExecution (config : Config)
    (script : list (Promise StartQueryExecutionOutput))
  : list event * settled string :=
  startQueryExecutionRecursively (startParams config) script.

(** ** [checkIfExecutionCompleted] *)

Record QueryExecutionStatus : Type := {
  State : string;
  StateChangeReason : option string
}.

Record GetQueryExecutionOutput : Type := {
  Status : QueryExecutionStatus;
  qe_OutputLocation : string;
  StatementType : string
}.

(** A cell of a structured row: [VarCharValue] may be missing. *)
Record Datum : Type := {
  VarCharValue : option string
}.

Record Row : Type := {
  Data : list Datum
}.

Record ColumnInfo : Type := {
  Name : string;
  Type_ : string
}.

Record GetQueryResultsOutput : Type := {
  Rows : list Row;
  ColumnInfo_ : list ColumnInfo;
  out_NextToken : option string
}.

(** The result-context object shared by the poller and the retriever:
    its field [s3Metadata] is undefined until the poller stores the promise
    of the one-row fetch in it. *)
Record Context : Type := {
  s3Metadata : option (Promise GetQueryResultsOutput)
}.

Definition metadataRequest (config : Config) : GetQueryResultsInput :=
  {| gqr_QueryExecutionId := QueryExecutionId config;
     MaxResults := 1;
     NextToken := None |}.

Section Poller.

(** The engine's answer to [GetQueryResultsCommand]. *)
Variable athena_results : GetQueryResultsInput -> Promise GetQueryResultsOutput.

(** [retry_] is the closure variable [retry] of the source; the context
    object is threaded through and returned.  The assignment of
    [config.retry] to [retry] in the SUCCEEDED branch is followed by no
    timer of this call and leaves nothing to record. *)
Fixpoint keepCheckingRecursively (config : Config) (retry_ : Z)
    (context : Context) (script : list (Promise GetQueryExecutionOutput))
  : list event * Context * settled GetQueryExecutionOutput :=
  match script with
  | [] => ([], context, Pending)
  | reply :: script' =>
      let poll := Send (GetQueryExecutionCommand (QueryExecutionId config)) in
      match reply with
      | Fulfilled data =>
          if String.eqb (State (Status data)) "SUCCEEDED" then
            ([poll; Send (GetQueryResultsCommand (metadataRequest config))],
             {| s3Metadata := Some (athena_results (metadataRequest config)) |},
             Resolved data)
          else if String.eqb (State (Status data)) "FAILED" then
            ([poll], context,
             Rejected (Reason (StateChangeReason (Status data))))
          else
            let '(tr, ctx, out) :=
              keepCheckingRecursively config retry_ context script' in
            (poll :: SetTimeout retry_ :: tr, ctx, out)
      | RejectedP err =>
          if isCommonAthenaError (code err) then
            let '(tr, ctx, out) :=
              keepCheckingRecursively config 2000 context script' in
            (poll :: SetTimeout 2000 :: tr, ctx, out)
          else ([poll], context, Rejected (ErrorObject err))
      end
  end.

Definition checkIfExecutionCompleted (config : Config) (context : Context)
    (script : list (Promise GetQueryExecutionOutput))
  : list event * Context * settled GetQueryExecutionOutput :=
  keepCheckingRecursively config (retry config) context script.

End Poller.

(** Observations on a trace. *)
Definition timeouts (tr : list event) : list Z :=
  flat_map (fun e => match e with SetTimeout ms => [ms] | Send _ => [] end) tr.

Definition sends (tr : list event) : list command :=
  flat_map (fun e => match e with Send c => [c] | SetTimeout _ => [] end) tr.

(** ** The runtime: strings, numbers and [JSON.parse]

    The built-in functions the source calls, written out from the language
    standard on strings of code units below 256. *)

Definition codeUnit (c : ascii) : N := N_of_ascii c.

Definition in_range (lo hi : N) (c : ascii) : bool :=
  ((lo <=? codeUnit c) && (codeUnit c <=? hi))%N%bool.

(** White space and line terminators, as skipped by [trim], [Number] and
    [BigInt]: TAB, LF, VT, FF, CR, SP and NBSP. *)
Definition isStrWhiteSpace (c : ascii) : bool :=
  (in_range 9 13 c || (codeUnit c =? 32)%N || (codeUnit c =? 160)%N)%bool.

Fixpoint trimStart (s : string) : string :=
  match s with
  | String c s' => if isStrWhiteSpace c then trimStart s' else s
  | EmptyString => EmptyString
  end.

Fixpoint trimEnd (s : string) : string :=
  match s with
  | String c s' =>
      match trimEnd s' with
      | EmptyString => if isStrWhiteSpace c then EmptyString else String c EmptyString
      | t => String c t
      end
  | EmptyString => EmptyString
  end.

Definition trim (s : string) : string := trimEnd (trimStart s).

(** [toLowerCase]: A-Z, and the upper-case letters of the Latin-1 block
    (all of 0xC0-0xDE but the multiplication sign 0xD7). *)
Definition lowerUnit (c : ascii) : ascii :=
  if (in_range 65 90 c ||
      (in_range 192 222 c && negb (codeUnit c =? 215)%N))%bool
  then ascii_of_N (codeUnit c + 32)
  else c.

Fixpoint toLowerCase (s : string) : string :=
  match s with
  | String c s' => String (lowerUnit c) (toLowerCase s')
  | EmptyString => EmptyString
  end.

(** [s.split(sep)] for a separator of one code unit. *)
Fixpoint split (sep : ascii) (s : string) : list string :=
  match s with
  | EmptyString => [EmptyString]
  | String c s' =>
      if Ascii.eqb c sep then EmptyString :: split sep s'
      else match split sep s' with
           | h :: t => String c h :: t
           | [] => [String c EmptyString]
           end
  end.

(** [a.join(sep)]. *)
Definition join (sep : string) (a : list string) : string := String.concat sep a.

(** [a.slice(n)]. *)
Definition slice {A : Type} (n : nat) (a : list A) : list A := skipn n a.

(** A Number, which is a double.  A finite double is written as the
    decimal that is exactly its value, [(-1)^negative * digits *
    10^exponent]: an integer with exponent 0, a fraction with the least
    number of decimals.  Both zeros are kept, [Decimal true 0 0] being
    the negative one. *)
Inductive number : Type :=
| NaN
| Infinity (negative : bool)
| Decimal (negative : bool) (digits : N) (exponent : Z).

(** The integer part of the binary logarithm of [num/den], both positive. *)
Definition floorLog2 (num den : Z) : Z :=
  let l := Z.log2 num - Z.log2 den in
  let below := if 0 <=? l then num <? den * 2 ^ l else num * 2 ^ (- l) <? den in
  if below then l - 1 else l.

(** The integer nearest to [n/d], the even one of two equally near. *)
Definition roundHalfEven (n d : Z) : Z :=
  let q := n / d in
  let r := n mod d in
  if d <? 2 * r then q + 1
  else if ((2 * r =? d) && Z.odd q)%bool then q + 1
  else q.

(** How many times 2 divides a positive number. *)
Fixpoint twos (p : positive) : nat :=
  match p with
  | xO q => S (twos q)
  | _ => 0%nat
  end.

(** [m * 2^e] written as a decimal. *)
Definition exactDecimal (negative : bool) (m e : Z) : number :=
  match m with
  | Zpos p =>
      if 0 <=? e then Decimal negative (Z.to_N (m * 2 ^ e)) 0
      else
        let k := Z.min (- e) (Z.of_nat (twos p)) in
        Decimal negative (Z.to_N (m / 2 ^ k * 5 ^ (- e - k))) (e + k)
  | _ => Decimal negative 0 0
  end.

(** The double nearest to [digits * 10^exponent], ties to the even
    significand: 53 bits of significand above the least exponent -1074,
    fewer at it, and an infinity from [2^1024] on.  An integer up to
    [2^53] is a double as it stands. *)
Definition roundToDouble (negative : bool) (digits : N) (exponent : Z) : number :=
  let num := if 0 <=? exponent then Z.of_N digits * 10 ^ exponent else Z.of_N digits in
  let den := if 0 <=? exponent then 1 else 10 ^ (- exponent) in
  if ((0 <=? exponent) && (num <=? 2 ^ 53))%bool then Decimal negative (Z.to_N num) 0
  else
    let e := Z.max (floorLog2 num den - 52) (-1074) in
    let m := if 0 <=? e then roundHalfEven num (den * 2 ^ e)
             else roundHalfEven (num * 2 ^ (- e)) den in
    if ((0 <=? e) && (2 ^ 1024 <=? m * 2 ^ e))%bool then Infinity negative
    else exactDecimal negative m e.

Definition digitValue (radix : N) (c : ascii) : option N :=
  let v :=
    if in_range 48 57 c then Some (codeUnit c - 48)%N
    else if in_range 97 102 c then Some (codeUnit c - 87)%N
    else if in_range 65 70 c then Some (codeUnit c - 55)%N
    else None in
  match v with
  | Some d => if (d <? radix)%N then Some d else None
  | None => None
  end.

(** The longest prefix of digits in the radix, and what follows it. *)
Fixpoint spanDigits (radix : N) (s : string) : list N * string :=
  match s with
  | String c s' =>
      match digitValue radix c with
      | Some d => let '(ds, r) := spanDigits radix s' in (d :: ds, r)
      | None => ([], s)
      end
  | EmptyString => ([], EmptyString)
  end.

Definition digitsValue (radix : N) (ds : list N) : N :=
  fold_left (fun acc d => acc * radix + d)%N ds 0%N.

Definition isNil {A : Type} (l : list A) : bool :=
  match l with [] => true | _ => false end.

(** A string made of digits only, at least one. *)
Definition allDigits (radix : N) (s : string) : option N :=
  match spanDigits radix s with
  | (d :: ds, EmptyString) => Some (digitsValue radix (d :: ds))
  | _ => None
  end.

(** [0x], [0o], [0b] literals (either case of the letter), unsigned. *)
Definition nonDecimalIntegerLiteral (s : string) : option N :=
  match s with
  | String "0" (String c r) =>
      if (Ascii.eqb c "x" || Ascii.eqb c "X")%bool then allDigits 16 r
      else if (Ascii.eqb c "o" || Ascii.eqb c "O")%bool then allDigits 8 r
      else if (Ascii.eqb c "b" || Ascii.eqb c "B")%bool then allDigits 2 r
      else None
  | _ => None
  end.

(** An optional sign. *)
Definition signOf (s : string) : bool * string :=
  match s with
  | String "-" r => (true, r)
  | String "+" r => (false, r)
  | _ => (false, s)
  end.

(** [ExponentPart], optional, up to the end of the string. *)
Definition exponentPart (s : string) : option Z :=
  match s with
  | EmptyString => Some 0
  | String c r =>
      if (Ascii.eqb c "e" || Ascii.eqb c "E")%bool then
        let '(neg, r') := signOf r in
        match allDigits 10 r' with
        | Some e => Some (if neg then - Z.of_N e else Z.of_N e)
        | None => None
        end
      else None
  end.

(** [StrUnsignedDecimalLiteral] other than [Infinity]: digits, an optional
    point and fraction, an optional exponent; a digit on one side of the
    point at least. *)
Definition unsignedDecimal (s : string) : option (N * Z) :=
  let '(ip, r1) := spanDigits 10 s in
  let '(fp, r2) :=
    match r1 with
    | String "." r => spanDigits 10 r
    | _ => ([], r1)
    end in
  if (isNil ip && isNil fp)%bool then None
  else match exponentPart r2 with
       | Some e => Some (digitsValue 10 (ip ++ fp)%list, e - Z.of_nat (List.length fp))
       | None => None
       end.

(** [Number(s)] on a string. *)
Definition Number (s : string) : number :=
  let t := trim s in
  match t with
  | EmptyString => Decimal false 0 0
  | _ =>
      match nonDecimalIntegerLiteral t with
      | Some n => roundToDouble false n 0
      | None =>
          let '(neg, r) := signOf t in
          if String.eqb r "Infinity" then Infinity neg
          else match unsignedDecimal r with
               | Some (m, e) => roundToDouble neg m e
               | None => NaN
               end
      end
  end.

(** [BigInt(s)] on a string: throws a SyntaxError unless the trimmed string
    is empty, a signed run of decimal digits, or an unsigned literal in
    another radix. *)
Definition BigInt (s : string) : result Z :=
  let t := trim s in
  match t with
  | EmptyString => Ok 0
  | _ =>
      match nonDecimalIntegerLiteral t with
      | Some n => Ok (Z.of_N n)
      | None =>
          let '(neg, r) := signOf t in
          match allDigits 10 r with
          | Some n => Ok (if neg then - Z.of_N n else Z.of_N n)
          | None => Throw SyntaxError
          end
      end
  end.

(** A value of the language, as far as the module produces one.  A string
    value is its sequence of code units, since an escape of [JSON.parse]
    can denote any unit up to 0xFFFF.  An array value is the list of its
    elements, an object value (only [JSON.parse] makes them here) the
    list of its properties in the order they are enumerated. *)
#[warnings="-register-all"]
Inductive jsval : Type :=
| Null
| Bool_ (b : bool)
| Num (n : number)
| Big (z : Z)
| Str (units : list N)
| Arr (elements : list jsval)
| Object_ (members : list (list N * jsval)).

Definition unitsOf (s : string) : list N :=
  map codeUnit (list_ascii_of_string s).

Module JSON.

(** [JSON.parse] runs in two passes, both by recursion on their input:
    the text is cut into tokens, and the tokens drive a machine with a
    stack of the arrays and objects still open. *)

Inductive token : Type :=
| TBeginArray | TEndArray | TBeginObject | TEndObject
| TComma | TColon
| TValue (v : jsval)        (* a literal name or a number *)
| TString (units : list N).

Definition quotationMark : ascii := ascii_of_N 34.

Definition reverseSolidus : ascii := ascii_of_N 92.

(** The white space of the JSON grammar: TAB, LF, CR and SP. *)
Definition isWhiteSpace (c : ascii) : bool :=
  ((codeUnit c =? 9) || (codeUnit c =? 10) ||
   (codeUnit c =? 13) || (codeUnit c =? 32))%N%bool.

Definition isLetter (c : ascii) : bool :=
  (in_range 97 122 c || in_range 65 90 c)%bool.

(** The code units a number is written with. *)
Definition isNumberUnit (c : ascii) : bool :=
  (in_range 48 57 c || Ascii.eqb c "-" || Ascii.eqb c "+" ||
   Ascii.eqb c "." || Ascii.eqb c "e" || Ascii.eqb c "E")%bool.

Definition literalName (w : string) : option jsval :=
  if String.eqb w "true" then Some (Bool_ true)
  else if String.eqb w "false" then Some (Bool_ false)
  else if String.eqb w "null" then Some Null
  else None.

(** [-? int frac? exp?]; [int] has no leading zero, [frac] has a digit. *)
Definition numberLiteral (s : string) : option number :=
  let '(neg, r) :=
    match s with String "-" r => (true, r) | _ => (false, s) end in
  let '(ip, r1) := spanDigits 10 r in
  let intOk :=
    match ip with
    | [] => false
    | [_] => true
    | d :: _ => negb (d =? 0)%N
    end in
  let frac :=
    match r1 with
    | String "." r' =>
        let '(fp, r2) := spanDigits 10 r' in
        if isNil fp then None else Some (fp, r2)
    | _ => Some ([], r1)
    end in
  match frac with
  | Some (fp, r2) =>
      if intOk then
        match exponentPart r2 with
        | Some e =>
            Some (roundToDouble neg (digitsValue 10 (ip ++ fp)%list)
                                    (e - Z.of_nat (List.length fp)))
        | None => None
        end
      else None
  | None => None
  end.

Inductive lexState : Type :=
| LStart
| LName (rev_units : string)
| LNumber (rev_units : string)
| LString (rev_units : list N)
| LEscape (rev_units : list N)
| LUnicode (rev_units : list N) (missing : nat) (acc : N).

Fixpoint revString (s acc : string) : string :=
  match s with
  | String c s' => revString s' (String c acc)
  | EmptyString => acc
  end.

(** A code unit met outside of any token. *)
Definition lexFresh (c : ascii) : option (lexState * list token) :=
  if isWhiteSpace c then Some (LStart, [])
  else if Ascii.eqb c "[" then Some (LStart, [TBeginArray])
  else if Ascii.eqb c "]" then Some (LStart, [TEndArray])
  else if Ascii.eqb c "{" then Some (LStart, [TBeginObject])
  else if Ascii.eqb c "}" then Some (LStart, [TEndObject])
  else if Ascii.eqb c "," then Some (LStart, [TComma])
  else if Ascii.eqb c ":" then Some (LStart, [TColon])
  else if Ascii.eqb c quotationMark then Some (LString [], [])
  else if isLetter c then Some (LName (String c EmptyString), [])
  else if (in_range 48 57 c || Ascii.eqb c "-")%bool
       then Some (LNumber (String c EmptyString), [])
  else None.

(** The token of a finished name or number. *)
Definition flush (st : lexState) : option (list token) :=
  match st with
  | LStart => Some []
  | LName w =>
      match literalName (revString w EmptyString) with
      | Some v => Some [TValue v]
      | None => None
      end
  | LNumber w =>
      match numberLiteral (revString w EmptyString) with
      | Some n => Some [TValue (Num n)]
      | None => None
      end
  | _ => None
  end.

Definition escaped (c : ascii) : option N :=
  if Ascii.eqb c quotationMark then Some 34%N
  else if Ascii.eqb c reverseSolidus then Some 92%N
  else if Ascii.eqb c "/" then Some 47%N
  else if Ascii.eqb c "b" then Some 8%N
  else if Ascii.eqb c "f" then Some 12%N
  else if Ascii.eqb c "n" then Some 10%N
  else if Ascii.eqb c "r" then Some 13%N
  else if Ascii.eqb c "t" then Some 9%N
  else None.

Definition lexStep (st : lexState) (c : ascii)
  : option (lexState * list token) :=
  match st with
  | LStart => lexFresh c
  | LName w =>
      if isLetter c then Some (LName (String c w), [])
      else match flush st, lexFresh c with
           | Some t1, Some (st', t2) => Some (st', (t1 ++ t2)%list)
           | _, _ => None
           end
  | LNumber w =>
      if isNumberUnit c then Some (LNumber (String c w), [])
      else match flush st, lexFresh c with
           | Some t1, Some (st', t2) => Some (st', (t1 ++ t2)%list)
           | _, _ => None
           end
  | LString u =>
      if Ascii.eqb c quotationMark then Some (LStart, [TString (rev u)])
      else if Ascii.eqb c reverseSolidus then Some (LEscape u, [])
      else if (codeUnit c <? 32)%N then None
      else Some (LString (codeUnit c :: u), [])
  | LEscape u =>
      if Ascii.eqb c "u" then Some (LUnicode u 3 0%N, [])
      else match escaped c with
           | Some n => Some (LString (n :: u), [])
           | None => None
           end
  | LUnicode u k acc =>
      match digitValue 16 c with
      | Some d =>
          match k with
          | O => Some (LString ((acc * 16 + d)%N :: u), [])
          | S k' => Some (LUnicode u k' (acc * 16 + d)%N, [])
          end
      | None => None
      end
  end.

Fixpoint lex (st : lexState) (s : string) : option (list token) :=
  match s with
  | EmptyString => flush st
  | String c s' =>
      match lexStep st c with
      | Some (st', ts) =>
          match lex st' s' with
          | Some rest => Some (ts ++ rest)%list
          | None => None
          end
      | None => None
      end
  end.

(** An array or object still open, with what it holds so far (latest
    first); an object frame also holds the name whose value is being
    read. *)
Inductive frame : Type :=
| InArray (rev_elements : list jsval)
| InObject (rev_members : list (list N * jsval)) (name : list N).

Inductive parseState : Type :=
| PValue (stack : list frame)
| PArrayStart (stack : list frame)
| PArrayNext (rev_elements : list jsval) (stack : list frame)
| PObjectStart (stack : list frame)
| PName (rev_members : list (list N * jsval)) (stack : list frame)
| PColon (rev_members : list (list N * jsval)) (name : list N)
         (stack : list frame)
| PObjectNext (rev_members : list (list N * jsval)) (stack : list frame)
| PDone (v : jsval).

Fixpoint sameUnits (a b : list N) : bool :=
  match a, b with
  | [], [] => true
  | x :: a', y :: b' => ((x =? y)%N && sameUnits a' b')%bool
  | _, _ => false
  end.

(** A name that is an array index: a canonical numeric string below
    2^32 - 1. *)
Definition indexOfUnits (k : list N) : option N :=
  match k with
  | [] => None
  | c :: r =>
      if ((c =? 48)%N && negb (isNil r))%bool then None
      else if forallb (fun u => ((48 <=? u) && (u <=? 57))%N%bool) k then
        let n := fold_left (fun acc u => acc * 10 + (u - 48))%N k 0%N in
        if (n <? 4294967295)%N then Some n else None
      else None
  end.

(** The property [name] is defined with value [v]: a name the object
    has keeps its place and takes the new value; a new name that is an
    array index goes among the indices, in increasing order, before the
    other names; any other new name goes last.  (The name [__proto__] is
    a name like any other here.) *)
Fixpoint defineMember (name : list N) (v : jsval)
    (members : list (list N * jsval)) : list (list N * jsval) :=
  match members with
  | [] => [(name, v)]
  | (name', v') :: members' =>
      if sameUnits name name' then (name', v) :: members'
      else
        let before :=
          match indexOfUnits name, indexOfUnits name' with
          | Some i, Some j => (i <? j)%N
          | Some _, None => true
          | None, _ => false
          end in
        if before then (name, v) :: members
        else (name', v') :: defineMember name v members'
  end.

(** The properties of an object whose members were read latest first. *)
Definition membersOf (rev_members : list (list N * jsval)) : list (list N * jsval) :=
  fold_right (fun m members => defineMember (fst m) (snd m) members) [] rev_members.

(** A value is complete: it goes where the innermost open frame wants. *)
Definition reduce (v : jsval) (stack : list frame) : parseState :=
  match stack with
  | [] => PDone v
  | InArray els :: stack' => PArrayNext (v :: els) stack'
  | InObject ms name :: stack' => PObjectNext ((name, v) :: ms) stack'
  end.

Definition startValue (t : token) (stack : list frame) : option parseState :=
  match t with
  | TValue v => Some (reduce v stack)
  | TString u => Some (reduce (Str u) stack)
  | TBeginArray => Some (PArrayStart stack)
  | TBeginObject => Some (PObjectStart stack)
  | _ => None
  end.

Definition parseStep (st : parseState) (t : token) : option parseState :=
  match st, t with
  | PValue stack, _ => startValue t stack
  | PArrayStart stack, TEndArray => Some (reduce (Arr []) stack)
  | PArrayStart stack, _ => startValue t (InArray [] :: stack)
  | PArrayNext els stack, TComma => Some (PValue (InArray els :: stack))
  | PArrayNext els stack, TEndArray => Some (reduce (Arr (rev els)) stack)
  | PObjectStart stack, TEndObject => Some (reduce (Object_ []) stack)
  | PObjectStart stack, TString u => Some (PColon [] u stack)
  | PName ms stack, TString u => Some (PColon ms u stack)
  | PColon ms name stack, TColon => Some (PValue (InObject ms name :: stack))
  | PObjectNext ms stack, TComma => Some (PName ms stack)
  | PObjectNext ms stack, TEndObject => Some (reduce (Object_ (membersOf ms)) stack)
  | _, _ => None
  end.

Fixpoint run (st : parseState) (ts : list token) : option jsval :=
  match ts with
  | [] => match st with PDone v => Some v | _ => None end
  | t :: ts' =>
      match parseStep st t with
      | Some st' => run st' ts'
      | None => None
      end
  end.

(** [JSON.parse(text)]: the value, or a SyntaxError. *)
Definition parse (text : string) : result jsval :=
  match lex LStart text with
  | Some ts =>
      match run (PValue []) ts with
      | Some v => Ok v
      | None => Throw SyntaxError
      end
  | None => Throw SyntaxError
  end.

End JSON.

(** ** Plain objects

    An object is the list of its own properties in the order [Object.keys]
    and [for ... in] enumerate them: the names that are array indices
    first, in increasing order, then the other names in the order of their
    creation. *)
Definition Obj (V : Type) : Type := list (string * V).

(** A canonical numeric string below 2^32 - 1. *)
Definition arrayIndex (k : string) : option N :=
  match k with
  | String c r =>
      if (Ascii.eqb c "0" && negb (String.eqb r EmptyString))%bool then None
      else match allDigits 10 k with
           | Some n => if (n <? 4294967295)%N then Some n else None
           | None => None
           end
  | EmptyString => None
  end.

(** Whether a new property [k] is enumerated before an existing [k']. *)
Definition precedes (k k' : string) : bool :=
  match arrayIndex k, arrayIndex k' with
  | Some i, Some j => (i <? j)%N
  | Some _, None => true
  | None, _ => false
  end.

(** [o[k]], undefined when [k] is not a property. *)
Fixpoint get {V : Type} (k : string) (o : Obj V) : option V :=
  match o with
  | [] => None
  | (k', v) :: o' => if String.eqb k k' then Some v else get k o'
  end.

(** [o[k] = v] for a name [k] other than [__proto__]: the value of an
    existing property is replaced where it stands; a new property takes
    its place in the order. *)
Fixpoint update {V : Type} (k : string) (v : V) (o : Obj V) : Obj V :=
  match o with
  | [] => []
  | (k', v') :: o' =>
      if String.eqb k k' then (k', v) :: o' else (k', v') :: update k v o'
  end.

Fixpoint insert {V : Type} (k : string) (v : V) (o : Obj V) : Obj V :=
  match o with
  | [] => [(k, v)]
  | (k', v') :: o' =>
      if precedes k k' then (k, v) :: o else (k', v') :: insert k v o'
  end.

Definition set {V : Type} (k : string) (v : V) (o : Obj V) : Obj V :=
  match get k o with
  | Some _ => update k v o
  | None => insert k v o
  end.

(** [o[k] = v] for a string [v], on an object made by [{}] and written
    to by assignment only: the name [__proto__] is the accessor that
    [Object.prototype] hands down, whose setter leaves a string aside, so
    that no property is made. *)
Definition assign (k : string) (v : string) (o : Obj string) : Obj string :=
  if String.eqb k "__proto__" then o else set k v o.

(** [Object.keys(o)]. *)
Definition keys {V : Type} (o : Obj V) : list string := map fst o.

(** ** [addDataType] *)

Definition isType (declared : option string) (name : string) : bool :=
  opt_string_eqb declared name.

(** The [switch] on [dataTypes[key]], for a value that is not empty. *)
Definition convert (declared : option string) (value : string) : result jsval :=
  if isType declared "varchar" then Ok (Str (unitsOf value))
  else if isType declared "boolean" then JSON.parse (toLowerCase value)
  else if isType declared "bigint" then
    match BigInt value with
    | Ok z => Ok (Big z)
    | Throw t => Throw t
    end
  else if (isType declared "integer" || isType declared "tinyint" ||
           isType declared "smallint" || isType declared "int" ||
           isType declared "float" || isType declared "double")%bool
  then Ok (Num (Number value))
  else Ok (Str (unitsOf value)).

(** The body of the [for ... in] loop, over the keys still to visit.
    [!input[key]] holds of the empty string (and of a missing property).
    The keys are those of a row as the two callers make it, none of which
    is [__proto__]: the assignment is that of an ordinary name. *)
Fixpoint addDataType_loop (todo : list string) (input dataTypes : Obj string)
    (updatedObjectWithDataType : Obj jsval) : result (Obj jsval) :=
  match todo with
  | [] => Ok updatedObjectWithDataType
  | key :: todo' =>
      let value := match get key input with Some s => s | None => EmptyString end in
      if String.eqb value EmptyString then
        addDataType_loop todo' input dataTypes
          (set key Null updatedObjectWithDataType)
      else
        match convert (get key dataTypes) value with
        | Ok v =>
            addDataType_loop todo' input dataTypes
              (set key v updatedObjectWithDataType)
        | Throw t => Throw t
        end
  end.

Definition addDataType (input dataTypes : Obj string) : result (Obj jsval) :=
  addDataType_loop (keys input) input dataTypes [].

(** ** [getDataTypes] *)

(** The [while (columnInfoArrayLength--)] loop: from the last column to the
    first.  (A column named [__proto__] leaves no property.) *)
Definition columnInfoObjectOf (columnInfoArray : list ColumnInfo) : Obj string :=
  fold_left (fun columnInfoObject c => assign (Name c) (Type_ c) columnInfoObject)
            (rev columnInfoArray) [].

(** The promise made by [getDataTypes] is settled by [resolve] only: when
    awaiting [context.s3Metadata] throws (it is rejected) or its value has
    no [ResultSet] (it is undefined), the executor stops and the promise
    stays pending. *)
Definition getDataTypes (context : Context) : settled (Obj string) :=
  match s3Metadata context with
  | Some (Fulfilled md) => Resolved (columnInfoObjectOf (ColumnInfo_ md))
  | Some (RejectedP _) => Pending
  | None => Pending
  end.

(** ** [cleanUpPaginatedDML] *)

(** The inner loop over the cells of a row, from cell [j] on.  A column
    index past the last name reads [undefined], which names the property
    ["undefined"]. *)
Fixpoint fillRowObject (columnNames : list string) (j : nat)
    (unformattedS3RowArray : list Datum) (rowObject : Obj string) : Obj string :=
  match unformattedS3RowArray with
  | [] => rowObject
  | d :: rest =>
      fillRowObject columnNames (S j) rest
        (match VarCharValue d with
         | Some v => assign (nth j columnNames "undefined") v rowObject
         | None => rowObject
         end)
  end.

(** The outer loop over the rows still to format. *)
Fixpoint formatRows (dataTypes : Obj string) (columnNames : list string)
    (rows : list Row) : result (list (Obj jsval)) :=
  match rows with
  | [] => Ok []
  | r :: rows' =>
      match addDataType (fillRowObject columnNames 0 (Data r) []) dataTypes with
      | Ok rec =>
          match formatRows dataTypes columnNames rows' with
          | Ok recs => Ok (rec :: recs)
          | Throw t => Throw t
          end
      | Throw t => Throw t
      end
  end.

Definition ofResult {A : Type} (r : result A) : settled A :=
  match r with
  | Ok a => Resolved a
  | Throw t => Rejected t
  end.

Definition cleanUpPaginatedDML (queryResults : GetQueryResultsOutput)
    (paginationFactor : nat) (context : Context) : settled (list (Obj jsval)) :=
  match getDataTypes context with
  | Resolved dataTypes =>
      let columnNames := rev (keys dataTypes) in
      ofResult (formatRows dataTypes columnNames
                  (skipn paginationFactor (Rows queryResults)))
  | Rejected t => Rejected t
  | Pending => Pending
  end.

(** ** [getQueryResultsFromS3] and the functions it calls *)

Record Params : Type := {
  s3Output : string;
  statementType : string;
  config : Config
}.

(** A property of the returned object that can be missing or [null]. *)
Inductive field (A : Type) : Type :=
| Absent
| IsNull
| Has (a : A).
Arguments Absent {A}.
Arguments IsNull {A}.
Arguments Has {A} a.

(** The four shapes [items] takes. *)
Inductive Items : Type :=
| Statements (l : list (Obj string))   (* from [cleanUpNonDML] *)
| Records (l : list (Obj jsval))       (* typed records *)
| RawRows (l : list Row)               (* a page as the engine sent it *)
| RawLines (l : list string).          (* from [getRawResultsFromS3] *)

Record QueryResult : Type := {
  items : Items;
  nextToken : option string;
  metadata : field (list ColumnInfo)
}.

(** An asynchronous computation: the requests it sends, in order, and
    what its promise ends in. *)
Definition Async (A : Type) : Type := (list event * settled A)%type.

Definition ret {A : Type} (a : A) : Async A := ([], Resolved a).

Definition bind {A B : Type} (m : Async A) (k : A -> Async B) : Async B :=
  match m with
  | (tr, Resolved a) => let '(tr', s) := k a in ((tr ++ tr')%list, s)
  | (tr, Rejected t) => (tr, Rejected t)
  | (tr, Pending) => (tr, Pending)
  end.

Notation "x <- m ;; k" := (bind m (fun x => k))
  (at level 61, m at next level, right associativity).

Definition lift {A : Type} (s : settled A) : Async A := ([], s).

(** [await p] for a promise of a client. *)
Definition await {A : Type} (p : Promise A) : Async A :=
  lift (match p with
        | Fulfilled a => Resolved a
        | RejectedP e => Rejected (ErrorObject e)
        end).

(** [Boolean(x)] for a number and for an optional string. *)
Definition truthyNumber (n : Z) : bool := negb (n =? 0).

Definition truthyString (s : option string) : bool :=
  match s with
  | Some t => negb (String.eqb t EmptyString)
  | None => false
  end.

(** [s.indexOf(c)], -1 when [c] does not occur. *)
Fixpoint indexOf (c : ascii) (s : string) : Z :=
  match s with
  | EmptyString => -1
  | String c' s' =>
      if Ascii.eqb c' c then 0
      else let i := indexOf c s' in if i <? 0 then -1 else i + 1
  end.

Definition TAB : ascii := ascii_of_N 9.

Section Retriever.

(** The engine's answer to [GetQueryResultsCommand] and the store's answer
    to [GetObjectCommand] (the body, as text). *)
Variable athena_results : GetQueryResultsInput -> Promise GetQueryResultsOutput.
Variable s3_object : S3Params -> Promise string.

(** The two libraries that cut a body into pieces: the lines [readline]
    emits, and the row objects [csvtojson] emits (their values are
    strings). *)
Variable readline : string -> list string.
Variable csv : bool -> string -> list (Obj string).

(** [client.send(command)]: the request leaves, a promise comes back. *)
Definition sendAthena (p : GetQueryResultsInput)
  : Async (Promise GetQueryResultsOutput) :=
  ([Send (GetQueryResultsCommand p)], Resolved (athena_results p)).

Definition sendS3 (p : S3Params) : Async (Promise string) :=
  ([Send (GetObjectCommand p)], Resolved (s3_object p)).

Definition cleanUpNonDML_line (line : string) : list (Obj string) :=
  if 0 <? indexOf TAB line then
    let parts := split TAB line in
    [[(trim (nth 0 parts EmptyString), trim (nth 1 parts EmptyString))]]
  else if negb (String.eqb (trim line) EmptyString) then
    [[("row", trim line)]]
  else [].

Definition cleanUpNonDML (input : string) : settled (list (Obj string)) :=
  Resolved (flat_map cleanUpNonDML_line (readline input)).

Definition getRawResultsFromS3 (input : string) : settled (list string) :=
  Resolved (map trim (readline input)).

(** The ["data"] listener run on each row in turn, the body being
    delivered in one piece.  The promise has no [reject] and the listener
    catches nothing: when [addDataType] throws, the error raises into the
    emitting library, which gives up the rows it has left and ends its
    stream; ["finish"] is emitted all the same and [resolve] is called
    with the records made so far. *)
Fixpoint cleanUpDML_rows (dataTypes : Obj string) (rows : list (Obj string))
    (cleanJson : list (Obj jsval)) : settled (list (Obj jsval)) :=
  match rows with
  | [] => Resolved cleanJson
  | data :: rows' =>
      match addDataType data dataTypes with
      | Ok rec => cleanUpDML_rows dataTypes rows' (cleanJson ++ [rec])%list
      | Throw _ => Resolved cleanJson
      end
  end.

Definition cleanUpDML (input : string) (ignoreEmpty_ : bool)
    (context : Context) : settled (list (Obj jsval)) :=
  match getDataTypes context with
  | Resolved dataTypes => cleanUpDML_rows dataTypes (csv ignoreEmpty_ input) []
  | Rejected t => Rejected t
  | Pending => Pending
  end.

Definition s3ParamsOf (params : Params) : S3Params :=
  {| Bucket := nth_error (split "/" (s3Output params)) 2;
     Key := join "/" (slice 3 (split "/" (s3Output params))) |}.

Definition paginationFactorOf (params : Params) : nat :=
  if truthyString (cfg_NextToken (config params)) then 0%nat else 1%nat.

Definition paginationParamsOf (params : Params) : GetQueryResultsInput :=
  {| gqr_QueryExecutionId := QueryExecutionId (config params);
     MaxResults := pagination (config params)
                   + Z.of_nat (paginationFactorOf params);
     NextToken := cfg_NextToken (config params) |}.

(** [includeMetadata ? (await metadataQueryPromise)... : null] *)
Definition metadataOf (params : Params)
    (metadataQueryPromise : option (Promise GetQueryResultsOutput))
  : Async (field (list ColumnInfo)) :=
  if includeMetadata (config params) then
    match metadataQueryPromise with
    | Some p => md <- await p ;; ret (Has (ColumnInfo_ md))
    | None => lift (Rejected TypeError)
    end
  else ret IsNull.

Definition getQueryResultsFromS3 (params : Params) (context : Context)
  : Async QueryResult :=
  let s3Params := s3ParamsOf params in
  if (String.eqb (statementType params) "UTILITY" ||
      String.eqb (statementType params) "DDL")%bool then
    body <- sendS3 s3Params ;;
    input <- await body ;;
    l <- lift (cleanUpNonDML input) ;;
    ret {| items := Statements l; nextToken := None; metadata := Absent |}
  else if truthyNumber (pagination (config params)) then
    let paginationFactor := paginationFactorOf params in
    let paginationParams := paginationParamsOf params in
    page <- sendAthena paginationParams ;;
    queryResults <- await page ;;
    if formatJson (config params) then
      l <- lift (cleanUpPaginatedDML queryResults paginationFactor context) ;;
      ret {| items := Records l;
             nextToken := out_NextToken queryResults;
             metadata := Has (ColumnInfo_ queryResults) |}
    else
      ret {| items := RawRows (Rows queryResults);
             nextToken := out_NextToken queryResults;
             metadata := Has (ColumnInfo_ queryResults) |}
  else
    metadataQueryPromise <-
      match s3Metadata context with
      | Some p => ret (Some p)
      | None =>
          if includeMetadata (config params) then
            p <- sendAthena (metadataRequest (config params)) ;;
            ret (Some p)
          else ret None
      end ;;
    body <- sendS3 s3Params ;;
    input <- await body ;;
    if formatJson (config params) then
      l <- lift (cleanUpDML input (ignoreEmpty (config params)) context) ;;
      md <- metadataOf params metadataQueryPromise ;;
      ret {| items := Records l; nextToken := None; metadata := md |}
    else
      l <- lift (getRawResultsFromS3 input) ;;
      md <- metadataOf params metadataQueryPromise ;;
      ret {| items := RawLines l; nextToken := None; metadata := md |}.

End Retriever.

(** ** Vocabulary of the statements *)

Definition traceOf {C A : Type} (r : list event * C * A) : list event :=
  fst (fst r).

Definition contextOf {C A : Type} (r : list event * C * A) : C :=
  snd (fst r).

Definition outcomeOf {C A : Type} (r : list event * C * A) : A := snd r.

(** A status that is neither SUCCEEDED nor FAILED (RUNNING, QUEUED, or any
    other). *)
Definition nonTerminal (data : GetQueryExecutionOutput) : bool :=
  (negb (String.eqb (State (Status data)) "SUCCEEDED") &&
   negb (String.eqb (State (Status data)) "FAILED"))%bool.

Definition transient (err : jserror) : bool := isCommonAthenaError (code err).

(** A reply after which the poller polls again. *)
Definition keepsPolling (reply : Promise GetQueryExecutionOutput) : bool :=
  match reply with
  | Fulfilled data => nonTerminal data
  | RejectedP err => transient err
  end.

Definition isStatus (reply : Promise GetQueryExecutionOutput) : bool :=
  match reply with
  | Fulfilled data => nonTerminal data
  | RejectedP _ => false
  end.

Definition transientCodes : list string :=
  ["TooManyRequestsException"; "ThrottlingException"; "NetworkingError";
   "UnknownEndpoint"].

(** The declared types converted with [Number]. *)
Definition numericTypes : list string :=
  ["integer"; "tinyint"; "smallint"; "int"; "float"; "double"].

(** How many times a request occurs among the requests sent. *)
Definition countResults (p : GetQueryResultsInput) (tr : list event) : nat :=
  List.length
    (filter (fun c =>
               match c with
               | GetQueryResultsCommand q =>
                   (String.eqb (gqr_QueryExecutionId q) (gqr_QueryExecutionId p)
                    && (MaxResults q =? MaxResults p)
                    && match NextToken q, NextToken p with
                       | None, None => true
                       | Some a, Some b => String.eqb a b
                       | _, _ => false
                       end)%bool
               | _ => false
               end)
            (sends tr)).

(** The reading of the output location in which the first two segments
    make the bucket and the remaining ones the key. *)
Definition bucketOfFirstTwo (location : string) : string :=
  join "/" (firstn 2 (split "/" location)).

Definition keyOfRemainder (location : string) : string :=
  join "/" (skipn 2 (split "/" location)).

Definition noSlash (s : string) : Prop :=
  ~ In "/"%char (list_ascii_of_string s).

(** ** A reference engine for paged results

    The engine is outside of the repository.  To follow a cursor from one
    call to the next, the statements on consecutive pages use this engine:
    it holds the rows of a finished execution, the header row first, serves
    at most [MaxResults] of them from the position the cursor denotes (the
    start when there is none), and hands out the position after the last
    row served as the next cursor while rows remain. *)

Definition tokenOf (position : nat) : string :=
  DecimalString.NilEmpty.string_of_uint (Nat.to_uint position).

Definition positionOf (token : string) : option nat :=
  option_map Nat.of_uint (DecimalString.NilEmpty.uint_of_string token).

Definition pagedEngine (columns : list ColumnInfo) (rows : list Row)
    (request : GetQueryResultsInput) : Promise GetQueryResultsOutput :=
  let start :=
    match NextToken request with
    | None => Some 0%nat
    | Some token => positionOf token
    end in
  match start with
  | Some from =>
      let n := Z.to_nat (MaxResults request) in
      Fulfilled
        {| Rows := firstn n (skipn from rows);
           ColumnInfo_ := columns;
           out_NextToken :=
             if (from + n <? List.length rows)%nat
             then Some (tokenOf (from + n)) else None |}
  | None =>
      RejectedP {| code := Some "InvalidRequestException";
                   message := "invalid NextToken" |}
  end.

(** The options with another cursor. *)
Definition withNextToken (c : Config) (token : option string) : Config :=
  {| sql := sql c; workgroup := workgroup c; s3Bucket := s3Bucket c;
     db := db c; catalog := catalog c; parameters := parameters c;
     encryption := encryption c; retry := retry c;
     QueryExecutionId := QueryExecutionId c; pagination := pagination c;
     cfg_NextToken := token; formatJson := formatJson c;
     includeMetadata := includeMetadata c; ignoreEmpty := ignoreEmpty c |}.

(** The requests and timers of [n] failed submissions followed by one more
    submission. *)
Definition attempts (params : StartQueryExecutionInput) (n : nat) : list event :=
  (List.concat (repeat [Send (StartQueryExecutionCommand params); SetTimeout 2000] n)
   ++ [Send (StartQueryExecutionCommand params)])%list.

(** The closure variable [retry] once the poller went through replies that
    all made it poll again, and what it did meanwhile. *)
Fixpoint retryAfter (retry_ : Z) (replies : list (Promise GetQueryExecutionOutput)) : Z :=
  match replies with
  | [] => retry_
  | Fulfilled _ :: replies' => retryAfter retry_ replies'
  | RejectedP _ :: replies' => retryAfter 2000 replies'
  end.

Fixpoint pollsOf (config : Config) (retry_ : Z)
    (replies : list (Promise GetQueryExecutionOutput)) : list event :=
  match replies with
  | [] => []
  | Fulfilled _ :: replies' =>
      Send (GetQueryExecutionCommand (QueryExecutionId config))
      :: SetTimeout retry_ :: pollsOf config retry_ replies'
  | RejectedP _ :: replies' =>
      Send (GetQueryExecutionCommand (QueryExecutionId config))
      :: SetTimeout 2000 :: pollsOf config 2000 replies'
  end.

(** The number of replies at the head of a script that make the poller
    poll again. *)
Fixpoint leading (script : list (Promise GetQueryExecutionOutput)) : nat :=
  match script with
  | reply :: script' => if keepsPolling reply then S (leading script') else 0%nat
  | [] => 0%nat
  end.

(** Sample data. *)
Definition sampleConfig : Config :=
  {| sql := "SELECT 1"; workgroup := Some "primary";
     s3Bucket := Some "s3://bucket/out"; db := Some "db"; catalog := None;
     parameters := None; encryption := None; retry := 200;
     QueryExecutionId := "q-1"; pagination := 0; cfg_NextToken := None;
     formatJson := true; includeMetadata := false; ignoreEmpty := true |}.

Definition fault (c : string) : jserror :=
  {| code := Some c; message := "" |}.

Definition status (state : string) (reason : option string)
  : Promise GetQueryExecutionOutput :=
  Fulfilled {| Status := {| State := state; StateChangeReason := reason |};
               qe_OutputLocation := "s3://bucket/out/q-1.csv";
               StatementType := "DML" |}.

Definition noResults (request : GetQueryResultsInput)
  : Promise GetQueryResultsOutput :=
  Fulfilled {| Rows := []; ColumnInfo_ := []; out_NextToken := None |}.

Definition emptyContext : Context := {| s3Metadata := None |}.

(** What the loop of [addDataType] stores under [key]. *)
Definition typedCell (input dataTypes : Obj string) (key : string) : result jsval :=
  match get key input with
  | Some EmptyString | None => Ok Null
  | Some value => convert (get key dataTypes) value
  end.

(** The names the rows of a page are matched with, by position. *)
Definition columnNamesOf (columns : list ColumnInfo) : list string :=
  rev (keys (columnInfoObjectOf columns)).

(** A name that assignment orders by creation: neither an array index
    nor [__proto__]. *)
Definition ordinaryName (k : string) : bool :=
  match arrayIndex k with
  | Some _ => false
  | None => negb (String.eqb k "__proto__")
  end.

Definition noValue : Datum := {| VarCharValue := None |}.

(** Whether [Number] reads a string as a number: the trimmed string is
    empty, a literal in radix 16, 8 or 2, or an optionally signed
    [Infinity] or decimal literal. *)
Definition isNumeric (s : string) : bool :=
  match trim s with
  | EmptyString => true
  | t =>
      match nonDecimalIntegerLiteral t with
      | Some _ => true
      | None =>
          (String.eqb (snd (signOf t)) "Infinity" ||
           match unsignedDecimal (snd (signOf t)) with
           | Some _ => true
           | None => false
           end)%bool
      end
  end.

Definition cell (v : string) : Datum := {| VarCharValue := Some v |}.

Definition column (name type : string) : ColumnInfo :=
  {| Name := name; Type_ := type |}.

(** A context warmed with the columns of a schema. *)
Definition warmed (columns : list ColumnInfo) : Context :=
  {| s3Metadata :=
       Some (Fulfilled {| Rows := []; ColumnInfo_ := columns;
                          out_NextToken := None |}) |}.

(** A result of five rows under a header row, and the options of a typed
    retrieval by pages of two. *)
Definition sampleColumns : list ColumnInfo := [column "id" "integer"].

Definition sampleHeader : Row := {| Data := [cell "id"] |}.

Definition sampleData : list Row :=
  [ {| Data := [cell "1"] |}; {| Data := [cell "2"] |}; {| Data := [cell "3"] |};
    {| Data := [cell "4"] |}; {| Data := [cell "5"] |} ].

Definition pagedConfig (token : option string) : Config :=
  {| sql := "SELECT id FROM t"; workgroup := Some "primary";
     s3Bucket := Some "s3://bucket/out"; db := Some "db"; catalog := None;
     parameters := None; encryption := None; retry := 200;
     QueryExecutionId := "q-1"; pagination := 2; cfg_NextToken := token;
     formatJson := true; includeMetadata := false; ignoreEmpty := true |}.

Definition pagedParams (token : option string) : Params :=
  {| s3Output := "s3://bucket/out/q-1.csv"; statementType := "DML";
     config := pagedConfig token |}.

Definition noObject (p : S3Params) : Promise string := Fulfilled "".

Definition noLines (body : string) : list string := [].

Definition noCsvRows (ignoreEmpty_ : bool) (body : string) : list (Obj string) := [].

Definition one (n : N) : Obj jsval := [("id", Num (Decimal false n 0))].

(** What a typed retrieval by pages comes to when it sent [request], made
    records of [rows] and was given the cursor [next]. *)
Definition typedPage (schema columns : list ColumnInfo)
    (request : GetQueryResultsInput) (rows : list Row) (next : option string)
  : Async QueryResult :=
  ([Send (GetQueryResultsCommand request)],
   match formatRows (columnInfoObjectOf schema) (columnNamesOf schema) rows with
   | Ok l => Resolved {| items := Records l; nextToken := next;
                         metadata := Has columns |}
   | Throw t => Rejected t
   end).

(** The cursor the reference engine hands out once [n] data rows are
    served: the position after them, the header being at position 0. *)
Definition cursorAfter (data : list Row) (n : nat) : option string :=
  if (n <? List.length data)%nat then Some (tokenOf (S n)) else None.

(** The options of a retrieval by pages that is not typed, and of a full
    retrieval of raw lines. *)
Definition rawPagedParams (token : option string) : Params :=
  {| s3Output := "s3://bucket/out/q-1.csv"; statementType := "DML";
     config :=
       {| sql := "SELECT id FROM t"; workgroup := Some "primary";
          s3Bucket := Some "s3://bucket/out"; db := Some "db"; catalog := None;
          parameters := None; encryption := None; retry := 200;
          QueryExecutionId := "q-1"; pagination := 2; cfg_NextToken := token;
          formatJson := false; includeMetadata := false; ignoreEmpty := true |} |}.

Definition rawParams : Params :=
  {| s3Output := "s3://bucket/out/q-1.csv"; statementType := "DML";
     config :=
       {| sql := "SELECT id FROM t"; workgroup := Some "primary";
          s3Bucket := Some "s3://bucket/out"; db := Some "db"; catalog := None;
          parameters := None; encryption := None; retry := 200;
          QueryExecutionId := "q-1"; pagination := 0; cfg_NextToken := None;
          formatJson := false; includeMetadata := false; ignoreEmpty := true |} |}.

(** The options of a full retrieval of typed records, and a text of two
    rows in the column [x]: TRUE, then maybe. *)
Definition typedParams : Params :=
  {| s3Output := "s3://bucket/out/q-1.csv"; statementType := "DML";
     config := sampleConfig |}.

Definition trueThenMaybe (ignoreEmpty_ : bool) (body : string) : list (Obj string) :=
  [[("x", "TRUE")]; [("x", "maybe")]].

(** ** [lowerCaseKeys]

    The [reduce] over [Object.keys(obj)]: a property whose value is
    undefined ([None]) is skipped, every other one is assigned under its
    lower-cased name, which is taken to be an ordinary name: what the
    assignment does under [__proto__] depends on the value assigned. *)
Definition lowerCaseKeys {V : Type} (obj : Obj (option V)) : Obj V :=
  fold_left (fun acc key =>
               match get key obj with
               | Some (Some v) => set (toLowerCase key) v acc
               | _ => acc
               end)
            (keys obj) [].


Definition noTab (s : string) : Prop := ~ In TAB (list_ascii_of_string s).

(** Whether a property of an object to lower-case is assigned under
    [name]. *)
Definition lowersTo {V : Type} (name : string) (entry : string * option V) : bool :=
  match snd entry with
  | Some _ => String.eqb (toLowerCase (fst entry)) name
  | None => false
  end.

(** The assignment of [lowerCaseKeys] for one property and its value. *)
Definition assignLowered {V : Type} (acc : Obj V) (e : string * option V) : Obj V :=
  match snd e with
  | Some v => set (toLowerCase (fst e)) v acc
  | None => acc
  end.

(** A text made of the white space of the JSON grammar only. *)
Definition jsonSpaces (s : string) : Prop :=
  Forall (fun c => JSON.isWhiteSpace c = true) (list_ascii_of_string s).

Definition booleanWord (b : bool) : string := if b then "true" else "false".

(** An array or an object. *)
Definition isContainer (v : jsval) : Prop :=
  match v with
  | Arr _ | Object_ _ => True
  | _ => False
  end.

(** The states of the parser in which an array or an object is open, or
    was the whole value. *)
Definition inContainer (st : JSON.parseState) : Prop :=
  match st with
  | JSON.PValue stack => stack <> []
  | JSON.PDone v => isContainer v
  | _ => True
  end.

(** The states of the lexer inside a string. *)
Definition inString (st : JSON.lexState) : Prop :=
  match st with
  | JSON.LString _ | JSON.LEscape _ | JSON.LUnicode _ _ _ => True
  | _ => False
  end.

(** * Properties *)

(** ** The launcher *)

Lemma opt_string_eqb_eq (a : option string) (b : string) :
  opt_string_eqb a b = true <-> a = Some b.
Proof.
  destruct a as [s|]; simpl.
  - rewrite String.eqb_eq. split; [intros ->; reflexivity | intros [= ->]; reflexivity].
  - split; discriminate.
Qed.

Lemma isCommonAthenaError_spec (c : option string) :
  isCommonAthenaError c = true <-> In c (map Some transientCodes).
Proof.
  unfold isCommonAthenaError, transientCodes. simpl.
  destruct (opt_string_eqb c "TooManyRequestsException") eqn:E1;
  [apply opt_string_eqb_eq in E1; subst; simpl; tauto|].
  destruct (opt_string_eqb c "ThrottlingException") eqn:E2;
  [apply opt_string_eqb_eq in E2; subst; simpl; tauto|].
  destruct (opt_string_eqb c "NetworkingError") eqn:E3;
  [apply opt_string_eqb_eq in E3; subst; simpl; tauto|].
  destruct (opt_string_eqb c "UnknownEndpoint") eqn:E4;
  [apply opt_string_eqb_eq in E4; subst; simpl; tauto|].
  simpl. split; [discriminate|].
  intros [H|[H|[H|[H|[]]]]]; symmetry in H; apply opt_string_eqb_eq in H; congruence.
Qed.

Lemma startQueryExecutionRecursively_transient params faults script :
  Forall (fun e => transient e = true) faults ->
  startQueryExecutionRecursively params (map RejectedP faults ++ script)%list =
  let '(tr, out) := startQueryExecutionRecursively params script in
  ((List.concat (repeat [Send (StartQueryExecutionCommand params); SetTimeout 2000]
                  (List.length faults)) ++ tr)%list, out).
Proof.
  induction 1 as [|e faults He _ IH]; simpl.
  - destruct (startQueryExecutionRecursively params script); reflexivity.
  - unfold transient in He. rewrite He, IH.
    destruct (startQueryExecutionRecursively params script); reflexivity.
Qed.

(** C6: exactly the four codes are transient; after any number of transient
    faults a successful submission resolves with the execution identifier,
    each failed attempt being followed by a timer of 2000 ms; the first
    fault that is not transient rejects with that fault, and nothing is sent
    after it; and while only transient faults arrive the loop goes on. *)
Theorem startQueryExecution_retry (config : Config) (faults : list jserror) :
  Forall (fun e => transient e = true) faults ->
  (forall c, isCommonAthenaError c = true <-> In c (map Some transientCodes)) /\
  (forall data rest,
      startQueryExecution config
        (map RejectedP faults ++ Fulfilled data :: rest)%list =
      (attempts (startParams config) (List.length faults),
       Resolved (sqe_QueryExecutionId data))) /\
  (forall err rest,
      transient err = false ->
      startQueryExecution config
        (map RejectedP faults ++ RejectedP err :: rest)%list =
      (attempts (startParams config) (List.length faults),
       Rejected (ErrorObject err))) /\
  timeouts (fst (startQueryExecution config (map RejectedP faults))) =
    repeat 2000 (List.length faults) /\
  snd (startQueryExecution config (map RejectedP faults)) = Pending.
Proof.
  intros Hf. unfold startQueryExecution, attempts.
  split; [exact isCommonAthenaError_spec|].
  split; [|split].
  - intros data rest.
    rewrite (startQueryExecutionRecursively_transient _ _ _ Hf). reflexivity.
  - intros err rest Herr.
    rewrite (startQueryExecutionRecursively_transient _ _ _ Hf). simpl.
    unfold transient in Herr. rewrite Herr. reflexivity.
  - rewrite <- (app_nil_r (map RejectedP faults)).
    rewrite (startQueryExecutionRecursively_transient _ _ _ Hf). simpl.
    rewrite app_nil_r. split; [|reflexivity].
    clear Hf. induction faults as [|e faults IH]; simpl; [reflexivity|].
    f_equal. exact IH.
Qed.

Lemma startQueryExecution_retry_witness :
  startQueryExecution sampleConfig
    [RejectedP (fault "ThrottlingException");
     RejectedP (fault "NetworkingError");
     Fulfilled {| sqe_QueryExecutionId := "q-1" |}] =
  ([Send (StartQueryExecutionCommand (startParams sampleConfig)); SetTimeout 2000;
    Send (StartQueryExecutionCommand (startParams sampleConfig)); SetTimeout 2000;
    Send (StartQueryExecutionCommand (startParams sampleConfig))],
   Resolved "q-1").
Proof.
  assert (H : Forall (fun e => transient e = true)
                [fault "ThrottlingException"; fault "NetworkingError"])
    by (repeat constructor).
  exact (proj1 (proj2 (startQueryExecution_retry sampleConfig _ H))
           {| sqe_QueryExecutionId := "q-1" |} []).
Defined.

(** ** The poller *)

Section PollerFacts.

Variable athena_results : GetQueryResultsInput -> Promise GetQueryResultsOutput.
Variable config : Config.

Lemma nonTerminal_states data :
  nonTerminal data = true ->
  String.eqb (State (Status data)) "SUCCEEDED" = false /\
  String.eqb (State (Status data)) "FAILED" = false.
Proof.
  unfold nonTerminal. intros H. apply andb_prop in H as [H1 H2].
  apply negb_true_iff in H1, H2. split; assumption.
Qed.

(** Replies that make the poller poll again only add polls and timers. *)
Lemma keepCheckingRecursively_prefix pre : forall retry_ context script,
  Forall (fun r => keepsPolling r = true) pre ->
  keepCheckingRecursively athena_results config retry_ context (pre ++ script) =
  let '(tr, ctx, out) :=
    keepCheckingRecursively athena_results config (retryAfter retry_ pre)
      context script in
  ((pollsOf config retry_ pre ++ tr)%list, ctx, out).
Proof.
  induction pre as [|reply pre IH]; intros retry_ context script Hpre.
  - simpl. destruct (keepCheckingRecursively _ _ _ _ _) as [[tr ctx] out].
    reflexivity.
  - inversion Hpre as [|? ? Hr Hpre']; subst. simpl.
    destruct reply as [data|err]; simpl in Hr.
    + destruct (nonTerminal_states _ Hr) as [-> ->].
      rewrite (IH _ _ _ Hpre').
      destruct (keepCheckingRecursively _ _ _ _ script) as [[tr ctx] out].
      reflexivity.
    + unfold transient in Hr. rewrite Hr.
      rewrite (IH _ _ _ Hpre').
      destruct (keepCheckingRecursively _ _ _ _ script) as [[tr ctx] out].
      reflexivity.
Qed.

Lemma sends_pollsOf pre : forall retry_,
  sends (pollsOf config retry_ pre) =
  repeat (GetQueryExecutionCommand (QueryExecutionId config)) (List.length pre).
Proof.
  induction pre as [|[data|err] pre IH]; intros retry_; simpl;
    [reflexivity | | ]; f_equal; apply IH.
Qed.

Lemma timeouts_app tr1 tr2 :
  timeouts (tr1 ++ tr2) = (timeouts tr1 ++ timeouts tr2)%list.
Proof. unfold timeouts. apply flat_map_app. Qed.

Lemma sends_app tr1 tr2 : sends (tr1 ++ tr2) = (sends tr1 ++ sends tr2)%list.
Proof. unfold sends. apply flat_map_app. Qed.

Lemma timeouts_pollsOf_statuses pre : forall retry_,
  Forall (fun r => isStatus r = true) pre ->
  timeouts (pollsOf config retry_ pre) = repeat retry_ (List.length pre) /\
  retryAfter retry_ pre = retry_.
Proof.
  induction pre as [|[data|err] pre IH]; intros retry_ H; simpl.
  - split; reflexivity.
  - inversion H; subst. destruct (IH retry_ H3) as [-> ->]. split; reflexivity.
  - inversion H; subst. discriminate.
Qed.

(** Once the interval is 2000 ms it stays so: every later timer of the
    call is armed with 2000 ms, one per reply that makes it poll again. *)
Lemma timeouts_backed_off script : forall context,
  timeouts (traceOf (keepCheckingRecursively athena_results config 2000
                       context script)) =
  repeat 2000 (leading script).
Proof.
  induction script as [|[data|err] script IH]; intros context; simpl.
  - reflexivity.
  - unfold nonTerminal.
    destruct (String.eqb (State (Status data)) "SUCCEEDED"); [reflexivity|].
    destruct (String.eqb (State (Status data)) "FAILED"); [reflexivity|].
    simpl. specialize (IH context).
    destruct (keepCheckingRecursively _ _ _ _ _) as [[tr ctx] out].
    simpl in *. f_equal. exact IH.
  - unfold transient.
    destruct (isCommonAthenaError (code err)); [|reflexivity].
    specialize (IH context).
    destruct (keepCheckingRecursively _ _ _ _ _) as [[tr ctx] out].
    simpl in *. f_equal. exact IH.
Qed.

(** C5: when the engine reports FAILED, the promise is rejected with the
    value of [StateChangeReason] as the engine gave it, the context is left
    as it was, and the poll that saw FAILED is the last request: whatever
    the engine would answer next is not asked for. *)
Theorem checkIfExecutionCompleted_failed context pre data rest :
  Forall (fun r => keepsPolling r = true) pre ->
  State (Status data) = "FAILED" ->
  checkIfExecutionCompleted athena_results config context
    (pre ++ Fulfilled data :: rest) =
  ((pollsOf config (retry config) pre
    ++ [Send (GetQueryExecutionCommand (QueryExecutionId config))])%list,
   context,
   Rejected (Reason (StateChangeReason (Status data)))) /\
  sends (traceOf (checkIfExecutionCompleted athena_results config context
                    (pre ++ Fulfilled data :: rest))) =
  repeat (GetQueryExecutionCommand (QueryExecutionId config))
         (S (List.length pre)).
Proof.
  intros Hpre Hfailed. unfold checkIfExecutionCompleted.
  rewrite (keepCheckingRecursively_prefix pre _ _ _ Hpre). simpl.
  rewrite Hfailed. simpl. split; [reflexivity|].
  unfold traceOf. simpl. rewrite sends_app, sends_pollsOf. simpl.
  change ([GetQueryExecutionCommand (QueryExecutionId config)])
    with (repeat (GetQueryExecutionCommand (QueryExecutionId config)) 1).
  rewrite <- repeat_app. rewrite Nat.add_1_r. reflexivity.
Qed.

(** C4, as the code has it: a transient fault arms its timer with 2000 ms,
    and so does every later poll of the call that has to poll again, be
    it after another fault or after a status; only the polls before the
    first fault wait for the interval of the caller. *)
Theorem checkIfExecutionCompleted_backoff context pre err post :
  Forall (fun r => isStatus r = true) pre ->
  transient err = true ->
  timeouts (traceOf (checkIfExecutionCompleted athena_results config context
                       (pre ++ RejectedP err :: post))) =
  (repeat (retry config) (List.length pre)
   ++ repeat 2000 (S (leading post)))%list.
Proof.
  intros Hpre Herr. unfold checkIfExecutionCompleted.
  assert (Hkeep : Forall (fun r => keepsPolling r = true) pre).
  { eapply Forall_impl; [|exact Hpre]. intros [d|e]; simpl; auto. discriminate. }
  rewrite (keepCheckingRecursively_prefix pre _ _ _ Hkeep).
  destruct (timeouts_pollsOf_statuses pre (retry config) Hpre) as [Ht ->].
  simpl. unfold transient in Herr. rewrite Herr.
  pose proof (timeouts_backed_off post context) as Hpost.
  destruct (keepCheckingRecursively _ _ 2000 _ post) as [[tr ctx] out].
  unfold traceOf in *. simpl in *.
  rewrite timeouts_app, Ht. simpl. rewrite Hpost. reflexivity.
Qed.

End PollerFacts.

Lemma checkIfExecutionCompleted_failed_witness :
  checkIfExecutionCompleted noResults sampleConfig emptyContext
    [status "RUNNING" None; status "FAILED" (Some "SYNTAX_ERROR: line 1:8")] =
  ([Send (GetQueryExecutionCommand "q-1"); SetTimeout 200;
    Send (GetQueryExecutionCommand "q-1")],
   emptyContext, Rejected (Reason (Some "SYNTAX_ERROR: line 1:8"))).
Proof.
  refine (proj1 (checkIfExecutionCompleted_failed noResults sampleConfig
            emptyContext [status "RUNNING" None] _ [] _ _)).
  - repeat constructor.
  - reflexivity.
Defined.

(** A run that meets no fault: RUNNING, RUNNING, SUCCEEDED is three polls
    and two timers of the interval asked for, then the one-row request
    that warms the schema. *)
Example checkIfExecutionCompleted_three_polls :
  traceOf (checkIfExecutionCompleted noResults sampleConfig emptyContext
             [status "RUNNING" None; status "RUNNING" None;
              status "SUCCEEDED" None]) =
  [Send (GetQueryExecutionCommand "q-1"); SetTimeout 200;
   Send (GetQueryExecutionCommand "q-1"); SetTimeout 200;
   Send (GetQueryExecutionCommand "q-1");
   Send (GetQueryResultsCommand (metadataRequest sampleConfig))].
Proof. reflexivity. Qed.

(** C4, as stated, fails: with an interval of 200 ms, after a throttling
    fault the timers armed on the two following RUNNING statuses are of
    2000 ms, not of 200 ms. *)
Lemma poll_interval_not_restored :
  timeouts (traceOf (checkIfExecutionCompleted noResults sampleConfig emptyContext
                       [RejectedP (fault "ThrottlingException");
                        status "RUNNING" None; status "RUNNING" None;
                        status "SUCCEEDED" None])) = [2000; 2000; 2000]
  /\ retry sampleConfig = 200
  /\ nth 2 (timeouts (traceOf (checkIfExecutionCompleted noResults sampleConfig
                                 emptyContext
                                 [RejectedP (fault "ThrottlingException");
                                  status "RUNNING" None; status "RUNNING" None;
                                  status "SUCCEEDED" None]))) 0
     <> retry sampleConfig.
Proof. repeat split. discriminate. Qed.

Lemma checkIfExecutionCompleted_backoff_witness :
  timeouts (traceOf (checkIfExecutionCompleted noResults sampleConfig emptyContext
                       [status "QUEUED" None;
                        RejectedP (fault "ThrottlingException");
                        status "RUNNING" None; status "RUNNING" None;
                        status "SUCCEEDED" None])) = [200; 2000; 2000; 2000].
Proof.
  refine (checkIfExecutionCompleted_backoff noResults sampleConfig emptyContext
            [status "QUEUED" None] (fault "ThrottlingException")
            [status "RUNNING" None; status "RUNNING" None;
             status "SUCCEEDED" None] _ _).
  - repeat constructor.
  - reflexivity.
Defined.

(** ** The object-store location *)

Lemma split_nonempty sep s : split sep s <> [].
Proof.
  destruct s as [|c s]; simpl; [discriminate|].
  destruct (Ascii.eqb c sep); [discriminate|].
  destruct (split sep s); discriminate.
Qed.

Lemma noSlash_cons c s : noSlash (String c s) -> c <> "/"%char /\ noSlash s.
Proof.
  unfold noSlash. simpl. intros H. split.
  - intros ->. apply H. left. reflexivity.
  - intros H'. apply H. right. exact H'.
Qed.

(** A segment that holds no slash and is followed by one is the first
    piece of the split. *)
Lemma split_segment a r :
  noSlash a -> split "/" (a ++ String "/" r) = a :: split "/" r.
Proof.
  induction a as [|c a IH]; intros Ha; simpl.
  - reflexivity.
  - apply noSlash_cons in Ha as [Hc Ha].
    apply Ascii.eqb_neq in Hc. rewrite Hc, (IH Ha). reflexivity.
Qed.

Lemma split_last a : noSlash a -> split "/" a = [a].
Proof.
  induction a as [|c a IH]; intros Ha; simpl.
  - reflexivity.
  - apply noSlash_cons in Ha as [Hc Ha].
    apply Ascii.eqb_neq in Hc. rewrite Hc, (IH Ha). reflexivity.
Qed.

(** Joining the pieces of a split gives the string back. *)
Lemma join_split s : join "/" (split "/" s) = s.
Proof.
  unfold join. induction s as [|c s IH]; simpl; [reflexivity|].
  destruct (Ascii.eqb c "/") eqn:Hc.
  - apply Ascii.eqb_eq in Hc. subst c.
    pose proof (split_nonempty "/" s) as Hne.
    destruct (split "/" s) as [|h t]; [contradiction|].
    change (String.concat "/" ("" :: h :: t))
      with ("" ++ "/" ++ String.concat "/" (h :: t)).
    rewrite IH. reflexivity.
  - pose proof (split_nonempty "/" s) as Hne.
    destruct (split "/" s) as [|h t]; [contradiction|].
    destruct t as [|h' t].
    + simpl in *. rewrite IH. reflexivity.
    + change (String.concat "/" (String c h :: h' :: t))
        with (String c (h ++ "/" ++ String.concat "/" (h' :: t))).
      change (String.concat "/" (h :: h' :: t))
        with (h ++ "/" ++ String.concat "/" (h' :: t)) in IH.
      rewrite IH. reflexivity.
Qed.

(** C7, as the code has it: of the segments between slashes, the third one
    alone is the bucket and the ones after it, joined by slashes again, are
    the key; the first two segments (the scheme and the empty segment
    before the bucket in [s3://bucket/key]) are dropped. *)
Theorem s3ParamsOf_third_segment (scheme authority bucket key statement : string)
    (cfg : Config) :
  noSlash scheme -> noSlash authority -> noSlash bucket ->
  s3ParamsOf {| s3Output := scheme ++ "/" ++ authority ++ "/" ++ bucket ++ "/" ++ key;
                statementType := statement; config := cfg |} =
    {| Bucket := Some bucket; Key := key |} /\
  s3ParamsOf {| s3Output := scheme ++ "/" ++ authority ++ "/" ++ bucket;
                statementType := statement; config := cfg |} =
    {| Bucket := Some bucket; Key := "" |}.
Proof.
  intros Hs Ha Hb. unfold s3ParamsOf. simpl s3Output.
  change (scheme ++ "/" ++ authority ++ "/" ++ bucket ++ "/" ++ key)
    with (scheme ++ String "/" (authority ++ String "/" (bucket ++ String "/" key))).
  change (scheme ++ "/" ++ authority ++ "/" ++ bucket)
    with (scheme ++ String "/" (authority ++ String "/" bucket)).
  rewrite !(split_segment scheme) by assumption.
  rewrite !(split_segment authority) by assumption.
  rewrite (split_segment bucket) by assumption.
  rewrite (split_last bucket) by assumption.
  unfold slice. simpl. rewrite join_split. split; reflexivity.
Qed.

Lemma s3ParamsOf_third_segment_witness :
  s3ParamsOf {| s3Output := "s3://bucket/path/file.csv";
                statementType := "DML"; config := sampleConfig |} =
  {| Bucket := Some "bucket"; Key := "path/file.csv" |}.
Proof.
  refine (proj1 (s3ParamsOf_third_segment "s3:" "" "bucket" "path/file.csv"
                   "DML" sampleConfig _ _ _));
    unfold noSlash; simpl; intuition discriminate.
Defined.

(** C7, as stated, fails: for [s3://bucket/path/file.csv] the first two
    segments are [s3:] and the empty string, and the bucket and key of the
    code are not made of them and of the rest. *)
Lemma bucket_not_first_two_segments :
  let params := {| s3Output := "s3://bucket/path/file.csv";
                   statementType := "DML"; config := sampleConfig |} in
  firstn 2 (split "/" (s3Output params)) = ["s3:"; ""] /\
  Bucket (s3ParamsOf params) = Some "bucket" /\
  Key (s3ParamsOf params) = "path/file.csv" /\
  Bucket (s3ParamsOf params) <> Some (bucketOfFirstTwo (s3Output params)) /\
  Key (s3ParamsOf params) <> keyOfRemainder (s3Output params).
Proof. simpl. repeat split; discriminate. Qed.

(** ** Objects *)

Section ObjectFacts.

Context {V : Type}.
Implicit Types (o : Obj V) (k : string) (v : V).

Lemma get_update_eq k v o : get k o <> None -> get k (update k v o) = Some v.
Proof.
  induction o as [|[k' v'] o IH]; simpl; [congruence|].
  destruct (String.eqb k k') eqn:E; simpl; rewrite E; auto.
Qed.

Lemma get_update_ne k k0 v o : k <> k0 -> get k0 (update k v o) = get k0 o.
Proof.
  intros Hne. induction o as [|[k' v'] o IH]; simpl; [reflexivity|].
  destruct (String.eqb k k') eqn:E; simpl.
  - apply String.eqb_eq in E. subst k'.
    destruct (String.eqb k0 k) eqn:E0; [|reflexivity].
    apply String.eqb_eq in E0. congruence.
  - rewrite IH. reflexivity.
Qed.

Lemma get_insert_eq k v o : get k o = None -> get k (insert k v o) = Some v.
Proof.
  induction o as [|[k' v'] o IH]; simpl.
  - rewrite String.eqb_refl. reflexivity.
  - destruct (String.eqb k k') eqn:E; [discriminate|]. intros H.
    destruct (precedes k k'); simpl.
    + rewrite String.eqb_refl. reflexivity.
    + rewrite E. auto.
Qed.

Lemma get_insert_ne k k0 v o : k <> k0 -> get k0 (insert k v o) = get k0 o.
Proof.
  intros Hne. apply not_eq_sym in Hne. apply String.eqb_neq in Hne.
  induction o as [|[k' v'] o IH]; simpl.
  - rewrite Hne. reflexivity.
  - destruct (precedes k k'); simpl.
    + rewrite Hne. reflexivity.
    + rewrite IH. reflexivity.
Qed.

Lemma get_set_eq k v o : get k (set k v o) = Some v.
Proof.
  unfold set. destruct (get k o) eqn:E.
  - apply get_update_eq. congruence.
  - apply get_insert_eq. exact E.
Qed.

Lemma get_set_ne k k0 v o : k <> k0 -> get k0 (set k v o) = get k0 o.
Proof.
  intros Hne. unfold set.
  destruct (get k o); [apply get_update_ne | apply get_insert_ne]; exact Hne.
Qed.

Lemma get_in_keys k o : get k o <> None <-> In k (keys o).
Proof.
  induction o as [|[k' v'] o IH]; simpl; [tauto|].
  destruct (String.eqb k k') eqn:E.
  - apply String.eqb_eq in E. subst. split; [auto | discriminate].
  - apply String.eqb_neq in E. rewrite IH. split; [auto|].
    intros [H|H]; [congruence | exact H].
Qed.

Lemma keys_update k v o : keys (update k v o) = keys o.
Proof.
  induction o as [|[k' v'] o IH]; simpl; [reflexivity|].
  destruct (String.eqb k k'); simpl; [reflexivity|]. rewrite IH. reflexivity.
Qed.

(** A name that is not an array index goes last. *)
Lemma insert_last k v o : arrayIndex k = None -> insert k v o = (o ++ [(k, v)])%list.
Proof.
  intros Hk. induction o as [|[k' v'] o IH]; simpl; [reflexivity|].
  unfold precedes. rewrite Hk, IH. reflexivity.
Qed.

End ObjectFacts.

(** Assignment of a string, the name [__proto__] apart. *)
Lemma get_assign_eq k v (o : Obj string) :
  k <> "__proto__" -> get k (assign k v o) = Some v.
Proof.
  intros Hk. unfold assign. apply String.eqb_neq in Hk. rewrite Hk.
  apply get_set_eq.
Qed.

Lemma get_assign_ne k k0 v (o : Obj string) :
  k <> k0 -> get k0 (assign k v o) = get k0 o.
Proof.
  intros Hne. unfold assign. destruct (String.eqb k "__proto__"); [reflexivity|].
  apply get_set_ne. exact Hne.
Qed.

Lemma get_assign_proto k v (o : Obj string) :
  get "__proto__" (assign k v o) = get "__proto__" o.
Proof.
  unfold assign. destruct (String.eqb k "__proto__") eqn:E; [reflexivity|].
  apply get_set_ne. apply String.eqb_neq. exact E.
Qed.

(** ** [addDataType] *)

Lemma typedCell_step input dataTypes key :
  typedCell input dataTypes key =
  let value := match get key input with Some s => s | None => EmptyString end in
  if String.eqb value EmptyString then Ok Null
  else convert (get key dataTypes) value.
Proof.
  unfold typedCell. destruct (get key input) as [[|c s]|]; reflexivity.
Qed.

(** The loop stores the typed cell of every key it visits and leaves the
    other properties as they were; it throws as soon as a typed cell does. *)
Lemma addDataType_loop_get input dataTypes todo : forall acc out,
  addDataType_loop todo input dataTypes acc = Ok out ->
  forall key,
    (In key todo -> exists v, typedCell input dataTypes key = Ok v /\
                              get key out = Some v) /\
    (~ In key todo -> get key out = get key acc).
Proof.
  induction todo as [|k todo IH]; intros acc out Hloop key.
  - simpl in Hloop. injection Hloop as <-. simpl. tauto.
  - simpl in Hloop. pose proof (typedCell_step input dataTypes k) as Hcell.
    cbv zeta in Hcell.
    assert (Hstep : exists v, typedCell input dataTypes k = Ok v /\
                      addDataType_loop todo input dataTypes (set k v acc) = Ok out).
    { destruct (String.eqb match get k input with Some s => s | None => "" end "").
      - exists Null. split; assumption.
      - destruct (convert _ _) as [v|t]; [|discriminate].
        exists v. split; assumption. }
    clear Hloop Hcell. destruct Hstep as (v & Hcell & Hloop).
    destruct (IH _ _ Hloop key) as [IHin IHout]. split.
    + intros Hin. destruct (in_dec string_dec key todo) as [Hin'|Hnin].
      { exact (IHin Hin'). }
      destruct Hin as [->|Hin]; [|contradiction].
      exists v. split; [exact Hcell|].
      rewrite (IHout Hnin). apply get_set_eq.
    + intros Hnin. simpl in Hnin. rewrite IHout by tauto.
      apply get_set_ne. intros ->. tauto.
Qed.

Lemma addDataType_loop_throw input dataTypes todo : forall acc key t,
  In key todo -> typedCell input dataTypes key = Throw t ->
  exists t', addDataType_loop todo input dataTypes acc = Throw t'.
Proof.
  induction todo as [|k todo IH]; intros acc key t Hin Hcell; [contradiction|].
  simpl. pose proof (typedCell_step input dataTypes k) as Hk. cbv zeta in Hk.
  destruct (String.eqb match get k input with Some s => s | None => "" end "").
  - destruct Hin as [->|Hin]; [congruence|]. eapply IH; eassumption.
  - destruct (convert _ _) as [v|t0]; [|eexists; reflexivity].
    destruct Hin as [->|Hin]; [congruence|]. eapply IH; eassumption.
Qed.

Lemma addDataType_loop_ok input dataTypes todo : forall acc,
  (forall key, In key todo -> exists v, typedCell input dataTypes key = Ok v) ->
  exists out, addDataType_loop todo input dataTypes acc = Ok out.
Proof.
  induction todo as [|k todo IH]; intros acc Hall; simpl; [eexists; reflexivity|].
  pose proof (typedCell_step input dataTypes k) as Hk. cbv zeta in Hk.
  destruct (Hall k (or_introl eq_refl)) as [v Hv].
  destruct (String.eqb match get k input with Some s => s | None => "" end "").
  - apply IH. intros key Hin. apply Hall. right. exact Hin.
  - rewrite <- Hk, Hv. apply IH. intros key Hin. apply Hall. right. exact Hin.
Qed.

(** A property of the record is the typed cell of the same property of
    the row, and the record has no other property. *)
Lemma addDataType_get input dataTypes out key :
  addDataType input dataTypes = Ok out ->
  match get key input with
  | Some _ => exists v, typedCell input dataTypes key = Ok v /\ get key out = Some v
  | None => get key out = None
  end.
Proof.
  unfold addDataType. intros Hloop.
  destruct (addDataType_loop_get _ _ _ _ _ Hloop key) as [Hin Hout].
  destruct (get key input) as [s|] eqn:Hget.
  - apply Hin. apply get_in_keys. congruence.
  - apply Hout. intros Hin'. apply get_in_keys in Hin'. congruence.
Qed.

(** ** Rows of a page *)

(** Cells are matched with names by position: the property named by
    position [j] holds the value of cell [j], and is not set when that
    cell has no value. *)
Lemma fillRowObject_get columnNames :
  NoDup columnNames -> ~ In "__proto__" columnNames ->
  forall data i acc j,
    (i + List.length data <= List.length columnNames)%nat ->
    (i <= j < i + List.length data)%nat ->
    get (nth j columnNames "undefined") (fillRowObject columnNames i data acc) =
    match VarCharValue (nth (j - i) data noValue) with
    | Some v => Some v
    | None => get (nth j columnNames "undefined") acc
    end.
Proof.
  intros Hnd Hproto.
  assert (Hother : forall data i acc k,
             (forall j, (i <= j < i + List.length data)%nat ->
                        nth j columnNames "undefined" <> k) ->
             get k (fillRowObject columnNames i data acc) = get k acc).
  { induction data as [|d data IH]; intros i acc k Hk; simpl; [reflexivity|].
    rewrite IH.
    - destruct (VarCharValue d); [|reflexivity].
      apply get_assign_ne. apply Hk. simpl. lia.
    - intros j Hj. apply Hk. simpl. lia. }
  induction data as [|d data IH]; intros i acc j Hlen Hj; simpl in *; [lia|].
  destruct (Nat.eq_dec j i) as [->|Hne].
  - rewrite Nat.sub_diag. simpl. rewrite Hother.
    + destruct (VarCharValue d); [|reflexivity].
      apply get_assign_eq. intros Heq. apply Hproto. rewrite <- Heq.
      apply nth_In. lia.
    + intros j Hj' Heq.
      apply (proj1 (NoDup_nth columnNames "undefined")) in Heq; [lia|exact Hnd|lia|lia].
  - rewrite IH by lia.
    replace (j - i)%nat with (S (j - S i)) by lia. simpl.
    destruct (VarCharValue (nth (j - S i) data noValue)); [reflexivity|].
    destruct (VarCharValue d); [|reflexivity].
    apply get_assign_ne. intros Heq.
    apply (proj1 (NoDup_nth columnNames "undefined")) in Heq; [lia|exact Hnd|lia|lia].
Qed.

Lemma keys_app {V : Type} (o1 o2 : Obj V) :
  keys (o1 ++ o2)%list = (keys o1 ++ keys o2)%list.
Proof. unfold keys. apply map_app. Qed.

Lemma ordinaryName_spec k :
  ordinaryName k = true -> arrayIndex k = None /\ k <> "__proto__".
Proof.
  unfold ordinaryName. destruct (arrayIndex k); [discriminate|].
  intros H. split; [reflexivity|]. apply String.eqb_neq.
  apply negb_true_iff. exact H.
Qed.

(** Distinct ordinary names are enumerated in the order they were
    assigned. *)
Lemma fold_set_keys (l : list ColumnInfo) : forall acc : Obj string,
  NoDup (keys acc ++ map Name l)%list ->
  Forall (fun c => ordinaryName (Name c) = true) l ->
  keys (fold_left (fun o c => assign (Name c) (Type_ c) o) l acc) =
  (keys acc ++ map Name l)%list.
Proof.
  induction l as [|c l IH]; intros acc Hnd Hidx; simpl.
  - rewrite app_nil_r. reflexivity.
  - inversion Hidx as [|? ? Hord Hl]; subst.
    destruct (ordinaryName_spec _ Hord) as [Hc Hp].
    assert (Hfresh : get (Name c) acc = None).
    { destruct (get (Name c) acc) eqn:E; [|reflexivity]. exfalso.
      assert (Hin : In (Name c) (keys acc)) by (apply get_in_keys; congruence).
      apply NoDup_remove_2 in Hnd. apply Hnd. apply in_or_app. left. exact Hin. }
    unfold assign at 2. apply String.eqb_neq in Hp. rewrite Hp.
    unfold set. rewrite Hfresh, (insert_last _ _ _ Hc).
    rewrite IH.
    + rewrite keys_app. simpl. rewrite <- app_assoc. reflexivity.
    + rewrite keys_app. simpl. rewrite <- app_assoc. exact Hnd.
    + exact Hl.
Qed.

(** The names are read off the keys in reverse, the keys were assigned
    from the last column to the first: position [j] names column [j]. *)
Lemma columnNamesOf_positions columns :
  NoDup (map Name columns) ->
  Forall (fun c => ordinaryName (Name c) = true) columns ->
  columnNamesOf columns = map Name columns.
Proof.
  intros Hnd Hidx. unfold columnNamesOf, columnInfoObjectOf.
  rewrite fold_set_keys.
  - simpl. rewrite map_rev, rev_involutive. reflexivity.
  - simpl. rewrite map_rev. apply NoDup_rev. exact Hnd.
  - apply Forall_rev. exact Hidx.
Qed.

Lemma formatRows_length dataTypes columnNames rows : forall l,
  formatRows dataTypes columnNames rows = Ok l -> List.length l = List.length rows.
Proof.
  induction rows as [|r rows IH]; intros l H; simpl in H.
  - injection H as <-. reflexivity.
  - destruct (addDataType _ _); [|discriminate].
    destruct (formatRows dataTypes columnNames rows); [|discriminate].
    injection H as <-. simpl. f_equal. apply IH. reflexivity.
Qed.

(** One row that throws makes the whole page throw. *)
Lemma formatRows_throw dataTypes columnNames before row after t :
  addDataType (fillRowObject columnNames 0 (Data row) []) dataTypes = Throw t ->
  exists t', formatRows dataTypes columnNames (before ++ row :: after) = Throw t'.
Proof.
  intros Hrow. induction before as [|r before [t' IH]]; simpl.
  - rewrite Hrow. eexists; reflexivity.
  - destruct (addDataType (fillRowObject columnNames 0 (Data r) []) dataTypes);
      [|eexists; reflexivity].
    rewrite IH. eexists; reflexivity.
Qed.

(** ** The typed record *)

(** C2: with the schema a: bigint, b: boolean, c: varchar, the row
    a = "42", b = "TRUE", c = "" becomes a = 42 (a BigInt), b = true,
    c = null, from a text row and from the cells of a page alike. *)
Theorem addDataType_bigint_boolean_null :
  addDataType [("a", "42"); ("b", "TRUE"); ("c", "")]
              [("a", "bigint"); ("b", "boolean"); ("c", "varchar")] =
    Ok [("a", Big 42); ("b", Bool_ true); ("c", Null)] /\
  cleanUpPaginatedDML
    {| Rows := [ {| Data := [cell "42"; cell "TRUE"; cell ""] |} ];
       ColumnInfo_ := [column "a" "bigint"; column "b" "boolean";
                       column "c" "varchar"];
       out_NextToken := None |}
    0
    (warmed [column "a" "bigint"; column "b" "boolean"; column "c" "varchar"]) =
    Resolved [[("a", Big 42); ("b", Bool_ true); ("c", Null)]].
Proof. split; reflexivity. Qed.

Lemma typedCell_value input dataTypes key value :
  get key input = Some value -> value <> "" ->
  typedCell input dataTypes key = convert (get key dataTypes) value.
Proof.
  unfold typedCell. intros -> Hne. destruct value; [congruence | reflexivity].
Qed.

Lemma convert_numeric ty value :
  In ty numericTypes -> convert (Some ty) value = Ok (Num (Number value)).
Proof.
  unfold numericTypes. simpl.
  intros [<-|[<-|[<-|[<-|[<-|[<-|[]]]]]]]; reflexivity.
Qed.

(** Rounding gives a double or an infinity. *)
Lemma roundToDouble_number negative digits exponent :
  roundToDouble negative digits exponent <> NaN.
Proof.
  unfold roundToDouble, exactDecimal.
  repeat match goal with
         | |- context [if ?b then _ else _] => destruct b
         | |- context [match ?m with Z0 => _ | Zpos _ => _ | Zneg _ => _ end] =>
             destruct m
         end; discriminate.
Qed.

Lemma Number_NaN value : Number value = NaN <-> isNumeric value = false.
Proof.
  unfold Number, isNumeric. destruct (trim value) as [|c t]; [split; discriminate|].
  destruct (nonDecimalIntegerLiteral (String c t)).
  { split; [intros H; apply roundToDouble_number in H; contradiction | discriminate]. }
  destruct (signOf (String c t)) as [neg r]. simpl snd.
  destruct (String.eqb r "Infinity"); [split; discriminate|]. simpl.
  destruct (unsignedDecimal r) as [[m e]|]; [|split; reflexivity].
  split; [intros H; apply roundToDouble_number in H; contradiction | discriminate].
Qed.

(** C10: in a column declared integer, tinyint, smallint, int, float or
    double, a cell that is not empty is stored as [Number] of its text, which
    is NaN exactly when the text is not numeric; nothing is thrown for it,
    and a row all of whose columns are so declared yields a record. *)
Theorem numeric_cell_never_throws input dataTypes key value ty :
  get key input = Some value -> value <> "" ->
  get key dataTypes = Some ty -> In ty numericTypes ->
  typedCell input dataTypes key = Ok (Num (Number value)) /\
  (Number value = NaN <-> isNumeric value = false) /\
  (forall out, addDataType input dataTypes = Ok out ->
               get key out = Some (Num (Number value))) /\
  ((forall k, In k (keys input) ->
              exists ty', get k dataTypes = Some ty' /\ In ty' numericTypes) ->
   exists out, addDataType input dataTypes = Ok out /\
               get key out = Some (Num (Number value))).
Proof.
  intros Hget Hne Hty Hnum.
  assert (Hcell : typedCell input dataTypes key = Ok (Num (Number value))).
  { rewrite (typedCell_value _ _ _ _ Hget Hne), Hty. apply convert_numeric, Hnum. }
  assert (Hout : forall out, addDataType input dataTypes = Ok out ->
                             get key out = Some (Num (Number value))).
  { intros out Hok. pose proof (addDataType_get _ _ _ key Hok) as H.
    rewrite Hget in H. destruct H as (v & Hv & Hgetv). congruence. }
  split; [exact Hcell|]. split; [apply Number_NaN|]. split; [exact Hout|].
  intros Hall.
  destruct (addDataType_loop_ok input dataTypes (keys input) []) as [out Hok].
  - intros k Hk. destruct (Hall k Hk) as (ty' & Hty' & Hnum').
    unfold typedCell. destruct (get k input) as [[|c s]|]; eauto.
    rewrite Hty'. eexists. apply convert_numeric, Hnum'.
  - exists out. split; [exact Hok | apply Hout, Hok].
Qed.

Lemma numeric_cell_never_throws_witness :
  typedCell [("n", "abc")] [("n", "integer")] "n" = Ok (Num NaN) /\
  addDataType [("n", "abc")] [("n", "integer")] = Ok [("n", Num NaN)].
Proof.
  pose proof (numeric_cell_never_throws [("n", "abc")] [("n", "integer")]
                "n" "abc" "integer" eq_refl) as H.
  destruct H as (Hcell & _ & _ & _).
  - discriminate.
  - reflexivity.
  - simpl. tauto.
  - split; [exact Hcell | reflexivity].
Defined.

(** C8, as stated, fails: a cell of a page that has no value, and a column
    of the schema that a text row does not mention, leave no property in
    the record, where the claim has null.  For the cells of a page the
    claim fails for an empty value too, when the names of the schema are
    not matched with the cells one for one: a name that repeats (the
    second column [a] is empty, the record holds x under [a]), names that
    are array indices (column [0] is empty, the record holds x under
    [0]), a column named [__proto__] (it is empty and leaves no property;
    column [b] is not empty and is null), a row longer than the schema
    (column [undefined] is empty, the record holds x under it). *)
Lemma absent_value_is_not_null :
  cleanUpPaginatedDML
    {| Rows := [ {| Data := [cell "1"; noValue] |} ];
       ColumnInfo_ := [column "a" "integer"; column "b" "varchar"];
       out_NextToken := None |}
    0 (warmed [column "a" "integer"; column "b" "varchar"]) =
    Resolved [[("a", Num (Decimal false 1 0))]] /\
  addDataType [("a", "1")] [("b", "varchar"); ("a", "integer")] =
    Ok [("a", Num (Decimal false 1 0))] /\
  get "b" [("a", Num (Decimal false 1 0))] = None /\
  get "b" [("a", Num (Decimal false 1 0))] <> Some Null /\
  cleanUpPaginatedDML
    {| Rows := [ {| Data := [cell "x"; cell ""] |} ];
       ColumnInfo_ := [column "a" "varchar"; column "a" "varchar"];
       out_NextToken := None |}
    0 (warmed [column "a" "varchar"; column "a" "varchar"]) =
    Resolved [[("a", Str (unitsOf "x")); ("undefined", Null)]] /\
  cleanUpPaginatedDML
    {| Rows := [ {| Data := [cell ""; cell "x"] |} ];
       ColumnInfo_ := [column "0" "varchar"; column "1" "varchar"];
       out_NextToken := None |}
    0 (warmed [column "0" "varchar"; column "1" "varchar"]) =
    Resolved [[("0", Str (unitsOf "x")); ("1", Null)]] /\
  cleanUpPaginatedDML
    {| Rows := [ {| Data := [cell "x"; cell ""; cell "y"] |} ];
       ColumnInfo_ := [column "a" "varchar"; column "__proto__" "varchar";
                       column "b" "varchar"];
       out_NextToken := None |}
    0 (warmed [column "a" "varchar"; column "__proto__" "varchar";
               column "b" "varchar"]) =
    Resolved [[("a", Str (unitsOf "x")); ("b", Null);
               ("undefined", Str (unitsOf "y"))]] /\
  cleanUpPaginatedDML
    {| Rows := [ {| Data := [cell ""; cell "x"] |} ];
       ColumnInfo_ := [column "undefined" "varchar"];
       out_NextToken := None |}
    0 (warmed [column "undefined" "varchar"]) =
    Resolved [[("undefined", Str (unitsOf "x"))]].
Proof. repeat split. discriminate. Qed.

(** C8, as the code has it.  A property of the row, [__proto__] apart,
    that holds the empty string becomes null in the record; a property
    the row does not have is not in the record either.  For the cells of
    a page, when the names of the schema are distinct, none of them an
    array index or [__proto__], and the row has no more cells than the
    schema has columns: a cell whose value is the empty string gives null
    under the name of its column, a cell without a value gives no
    property under that name. *)
Theorem empty_is_null_absent_is_missing (columns : list ColumnInfo) (row : Row) :
  NoDup (map Name columns) ->
  Forall (fun c => ordinaryName (Name c) = true) columns ->
  (List.length (Data row) <= List.length columns)%nat ->
  (forall input dataTypes out key,
      key <> "__proto__" ->
      addDataType input dataTypes = Ok out ->
      (get key input = Some "" -> get key out = Some Null) /\
      (get key input = None -> get key out = None)) /\
  (forall rec j,
      addDataType (fillRowObject (columnNamesOf columns) 0 (Data row) [])
                  (columnInfoObjectOf columns) = Ok rec ->
      (j < List.length (Data row))%nat ->
      (VarCharValue (nth j (Data row) noValue) = Some "" ->
       get (Name (nth j columns (column "undefined" ""))) rec = Some Null) /\
      (VarCharValue (nth j (Data row) noValue) = None ->
       get (Name (nth j columns (column "undefined" ""))) rec = None)).
Proof.
  intros Hnd Hidx Hlen.
  assert (Hrec : forall input dataTypes out key,
      addDataType input dataTypes = Ok out ->
      (get key input = Some "" -> get key out = Some Null) /\
      (get key input = None -> get key out = None)).
  { intros input dataTypes out key Hok.
    pose proof (addDataType_get _ _ _ key Hok) as H. split; intros Hget.
    - rewrite Hget in H. destruct H as (v & Hv & ->).
      unfold typedCell in Hv. rewrite Hget in Hv. congruence.
    - rewrite Hget in H. exact H. }
  split; [intros input dataTypes out key _; apply Hrec|].
  intros rec j Hok Hj.
  pose proof (fillRowObject_get (columnNamesOf columns)) as Hfill.
  rewrite (columnNamesOf_positions _ Hnd Hidx) in *.
  assert (Hproto : ~ In "__proto__" (map Name columns)).
  { intros Hin. apply in_map_iff in Hin. destruct Hin as (c & Hc & Hin).
    rewrite Forall_forall in Hidx.
    destruct (ordinaryName_spec _ (Hidx c Hin)) as [_ Hne]. congruence. }
  specialize (Hfill Hnd Hproto (Data row) 0%nat [] j).
  rewrite length_map, Nat.sub_0_r in Hfill.
  change "undefined" with (Name (column "undefined" "")) in Hfill at 1.
  rewrite map_nth in Hfill. simpl get in Hfill.
  specialize (Hfill ltac:(simpl; lia) ltac:(simpl; lia)).
  destruct (Hrec _ _ _ (Name (nth j columns (column "undefined" ""))) Hok)
    as [Hempty Habsent].
  split; intros Hv; rewrite Hv in Hfill; auto.
Qed.

Lemma empty_is_null_absent_is_missing_witness :
  get "a" [("a", Null)] = Some Null /\ get "b" [("a", @Null)] = None.
Proof.
  pose proof (empty_is_null_absent_is_missing
                [column "a" "integer"; column "b" "varchar"]
                {| Data := [cell ""; noValue] |}) as H.
  destruct H as [_ H].
  - repeat constructor; simpl; intuition discriminate.
  - repeat constructor.
  - simpl. lia.
  - assert (Hok : addDataType
              (fillRowObject
                 (columnNamesOf [column "a" "integer"; column "b" "varchar"])
                 0 (Data {| Data := [cell ""; noValue] |}) [])
              (columnInfoObjectOf [column "a" "integer"; column "b" "varchar"]) =
              Ok [("a", Null)]) by reflexivity.
    destruct (H _ 0%nat Hok ltac:(simpl; lia)) as [Ha _].
    destruct (H _ 1%nat Hok ltac:(simpl; lia)) as [_ Hb].
    split; [apply Ha | apply Hb]; reflexivity.
Defined.

(** ** The retriever *)

Lemma positionOf_tokenOf n : positionOf (tokenOf n) = Some n.
Proof.
  unfold positionOf, tokenOf. rewrite DecimalString.NilEmpty.usu. simpl.
  rewrite DecimalNat.Unsigned.of_to. reflexivity.
Qed.

Lemma tokenOf_nonempty n : truthyString (Some (tokenOf n)) = true.
Proof.
  unfold truthyString, tokenOf.
  destruct (Nat.to_uint n) eqn:E; try reflexivity.
  exfalso. pose proof (DecimalNat.Unsigned.of_to n) as H. rewrite E in H.
  simpl in H. subst n. discriminate.
Qed.

Section RetrieverFacts.

Variable s3_object : S3Params -> Promise string.
Variable readline : string -> list string.
Variable csv : bool -> string -> list (Obj string).

Lemma statement_not (s u : string) : s <> u -> String.eqb s u = false.
Proof. apply String.eqb_neq. Qed.

(** The branch of a typed retrieval by pages, for any engine. *)
Lemma getQueryResultsFromS3_typed_page athena_results params context :
  statementType params <> "UTILITY" ->
  statementType params <> "DDL" ->
  truthyNumber (pagination (config params)) = true ->
  formatJson (config params) = true ->
  getQueryResultsFromS3 athena_results s3_object readline csv params context =
  ([Send (GetQueryResultsCommand (paginationParamsOf params))],
   match athena_results (paginationParamsOf params) with
   | Fulfilled queryResults =>
       match cleanUpPaginatedDML queryResults (paginationFactorOf params)
                                 context with
       | Resolved l =>
           Resolved {| items := Records l;
                       nextToken := out_NextToken queryResults;
                       metadata := Has (ColumnInfo_ queryResults) |}
       | Rejected t => Rejected t
       | Pending => Pending
       end
   | RejectedP e => Rejected (ErrorObject e)
   end).
Proof.
  intros Hu Hd Hp Hf. unfold getQueryResultsFromS3.
  rewrite (statement_not _ _ Hu), (statement_not _ _ Hd), Hp, Hf.
  unfold sendAthena, bind, await, lift. cbn [orb app].
  destruct (athena_results (paginationParamsOf params)) as [qr|e]; [|reflexivity].
  destruct (cleanUpPaginatedDML qr (paginationFactorOf params) context);
    reflexivity.
Qed.

Lemma cleanUpPaginatedDML_warmed queryResults paginationFactor schema :
  cleanUpPaginatedDML queryResults paginationFactor (warmed schema) =
  ofResult (formatRows (columnInfoObjectOf schema) (columnNamesOf schema)
              (skipn paginationFactor (Rows queryResults))).
Proof. reflexivity. Qed.

(** C1: a typed retrieval by pages of [P].  Without a cursor one request
    for [P + 1] rows is sent and the first row, the header, is left out:
    the records are those of the first [P] data rows, [P] of them when
    there are as many, and the cursor is the one of the engine.  With a
    cursor the request is for [P] rows and all of them are used.  Followed
    from page to page on the reference engine, each page starts on the
    data row after the last one of the page before. *)
Theorem paginated_typed_pages (columns schema : list ColumnInfo)
    (header : Row) (data : list Row) (params : Params) (P : Z) :
  0 < P ->
  pagination (config params) = P ->
  formatJson (config params) = true ->
  statementType params <> "UTILITY" ->
  statementType params <> "DDL" ->
  let engine := pagedEngine columns (header :: data) in
  let p := Z.to_nat P in
  let id := QueryExecutionId (config params) in
  (cfg_NextToken (config params) = None ->
   getQueryResultsFromS3 engine s3_object readline csv params (warmed schema) =
   typedPage schema columns
     {| gqr_QueryExecutionId := id; MaxResults := P + 1; NextToken := None |}
     (firstn p data) (cursorAfter data p)) /\
  (forall n,
      cfg_NextToken (config params) = Some (tokenOf (S n)) ->
      getQueryResultsFromS3 engine s3_object readline csv params (warmed schema) =
      typedPage schema columns
        {| gqr_QueryExecutionId := id; MaxResults := P;
           NextToken := Some (tokenOf (S n)) |}
        (firstn p (skipn n data)) (cursorAfter data (n + p))) /\
  (forall n l,
      formatRows (columnInfoObjectOf schema) (columnNamesOf schema)
                 (firstn p (skipn n data)) = Ok l ->
      (n + p <= List.length data)%nat ->
      Z.of_nat (List.length l) = P).
Proof.
  intros HP Hpag Hfmt Hu Hd engine p id.
  assert (Htruthy : truthyNumber (pagination (config params)) = true).
  { unfold truthyNumber. rewrite Hpag. apply negb_true_iff, Z.eqb_neq. lia. }
  split; [|split].
  - intros Htok.
    rewrite (getQueryResultsFromS3_typed_page _ _ _ Hu Hd Htruthy Hfmt).
    unfold paginationParamsOf, paginationFactorOf. rewrite Htok, Hpag.
    cbn [truthyString Z.of_nat]. change (Z.pos (Pos.of_succ_nat 0)) with 1.
    unfold engine, pagedEngine. cbn [NextToken MaxResults].
    replace (Z.to_nat (P + 1)) with (S p) by (unfold p; lia).
    rewrite cleanUpPaginatedDML_warmed.
    cbn [Rows out_NextToken ColumnInfo_ skipn firstn Nat.add List.length].
    unfold typedPage, cursorAfter.
    change (S p <? S (List.length data))%nat with (p <? List.length data)%nat.
    destruct (formatRows (columnInfoObjectOf schema) (columnNamesOf schema)
                (firstn p data)); reflexivity.
  - intros n Htok.
    rewrite (getQueryResultsFromS3_typed_page _ _ _ Hu Hd Htruthy Hfmt).
    unfold paginationParamsOf, paginationFactorOf. rewrite Htok, Hpag.
    rewrite tokenOf_nonempty. cbn [Z.of_nat]. rewrite Z.add_0_r.
    unfold engine, pagedEngine. cbn [NextToken MaxResults].
    rewrite positionOf_tokenOf, cleanUpPaginatedDML_warmed.
    cbn [Rows out_NextToken ColumnInfo_ skipn List.length Nat.add].
    unfold typedPage, cursorAfter. fold p.
    change (S (n + p) <? S (List.length data))%nat
      with (n + p <? List.length data)%nat.
    destruct (formatRows (columnInfoObjectOf schema) (columnNamesOf schema)
                (firstn p (skipn n data))); reflexivity.
  - intros n l Hl Hlen. apply formatRows_length in Hl.
    rewrite Hl, length_firstn, length_skipn. unfold p in *. lia.
Qed.

Lemma countResults_app p tr1 tr2 :
  countResults p (tr1 ++ tr2) = (countResults p tr1 + countResults p tr2)%nat.
Proof.
  unfold countResults, sends.
  rewrite flat_map_app, filter_app, length_app. reflexivity.
Qed.

Lemma countResults_pollsOf p cfg pre : forall retry_,
  countResults p (pollsOf cfg retry_ pre) = 0%nat.
Proof.
  induction pre as [|[d|e] pre IH]; intros retry_; [reflexivity| |];
    apply (IH _).
Qed.

(** The one-row request of the poller is not the request of a page. *)
Lemma page_is_not_metadata_request params :
  truthyNumber (pagination (config params)) = true ->
  countResults (metadataRequest (config params))
    [Send (GetQueryResultsCommand (paginationParamsOf params))] = 0%nat.
Proof.
  unfold truthyNumber, countResults, paginationParamsOf, paginationFactorOf.
  intros Hp. apply negb_true_iff, Z.eqb_neq in Hp. simpl.
  destruct (cfg_NextToken (config params)) as [tok|]; simpl.
  - rewrite andb_false_r. reflexivity.
  - rewrite andb_true_r.
    replace (pagination (config params) + 1 =? 1) with false
      by (symmetry; apply Z.eqb_neq; lia).
    rewrite andb_false_r. reflexivity.
Qed.

Variable athena_results : GetQueryResultsInput -> Promise GetQueryResultsOutput.

(** C9: once the context holds the promise of the schema, a retrieval
    sends one request only, for the object or for the page asked for, and
    never the one-row request of the schema again; the types come from
    the promise held, and so does the metadata of a retrieval that is not
    by pages.  From the poll that saw SUCCEEDED to the end of the
    retrieval the one-row request is sent once. *)
Theorem cached_schema_is_reused (params : Params) (context : Context)
    (cached : Promise GetQueryResultsOutput) :
  s3Metadata context = Some cached ->
  let run := getQueryResultsFromS3 athena_results s3_object readline csv
               params context in
  (fst run = [Send (GetObjectCommand (s3ParamsOf params))] \/
   fst run = [Send (GetQueryResultsCommand (paginationParamsOf params))] /\
   truthyNumber (pagination (config params)) = true) /\
  countResults (metadataRequest (config params)) (fst run) = 0%nat /\
  getDataTypes context =
    match cached with
    | Fulfilled md => Resolved (columnInfoObjectOf (ColumnInfo_ md))
    | RejectedP _ => Pending
    end /\
  (forall r,
      snd run = Resolved r ->
      statementType params <> "UTILITY" ->
      statementType params <> "DDL" ->
      truthyNumber (pagination (config params)) = false ->
      includeMetadata (config params) = true ->
      exists md, cached = Fulfilled md /\ metadata r = Has (ColumnInfo_ md)) /\
  (forall context0 pre data,
      Forall (fun reply => keepsPolling reply = true) pre ->
      State (Status data) = "SUCCEEDED" ->
      let polled := checkIfExecutionCompleted athena_results (config params)
                      context0 (pre ++ [Fulfilled data]) in
      outcomeOf polled = Resolved data /\
      s3Metadata (contextOf polled) =
        Some (athena_results (metadataRequest (config params))) /\
      countResults (metadataRequest (config params))
        (traceOf polled ++
         fst (getQueryResultsFromS3 athena_results s3_object readline csv
                params (contextOf polled))) = 1%nat).
Proof.
  intros Hcached run.
  assert (Htrace : forall ctx c, s3Metadata ctx = Some c ->
            let run := getQueryResultsFromS3 athena_results s3_object readline
                         csv params ctx in
            fst run = [Send (GetObjectCommand (s3ParamsOf params))] \/
            fst run = [Send (GetQueryResultsCommand (paginationParamsOf params))]
            /\ truthyNumber (pagination (config params)) = true).
  { intros ctx c Hc. unfold getQueryResultsFromS3.
    destruct (String.eqb (statementType params) "UTILITY" ||
              String.eqb (statementType params) "DDL")%bool.
    - left. unfold sendS3, bind, await, lift, cleanUpNonDML.
      destruct (s3_object (s3ParamsOf params)); reflexivity.
    - destruct (truthyNumber (pagination (config params))) eqn:Hp.
      + right. split; [|reflexivity].
        unfold sendAthena, bind, await, lift.
        destruct (athena_results (paginationParamsOf params)) as [qr|e];
          [|reflexivity].
        destruct (formatJson (config params)); [|reflexivity].
        destruct (cleanUpPaginatedDML qr (paginationFactorOf params) ctx);
          reflexivity.
      + left. rewrite Hc. unfold sendS3, bind, await, lift, ret, metadataOf.
        destruct (s3_object (s3ParamsOf params)) as [input|e]; [|reflexivity].
        destruct (formatJson (config params)).
        * destruct (cleanUpDML csv input (ignoreEmpty (config params)) ctx);
            [|reflexivity|reflexivity].
          destruct (includeMetadata (config params)); [|reflexivity].
          unfold bind, await, lift. destruct c; reflexivity.
        * unfold getRawResultsFromS3.
          destruct (includeMetadata (config params)); [|reflexivity].
          unfold bind, await, lift. destruct c; reflexivity. }
  assert (Hcount : forall ctx c, s3Metadata ctx = Some c ->
            countResults (metadataRequest (config params))
              (fst (getQueryResultsFromS3 athena_results s3_object readline
                      csv params ctx)) = 0%nat).
  { intros ctx c Hc. destruct (Htrace ctx c Hc) as [->|[-> Hp]].
    - reflexivity.
    - apply page_is_not_metadata_request, Hp. }
  split; [exact (Htrace context cached Hcached)|].
  split; [exact (Hcount context cached Hcached)|].
  split; [unfold getDataTypes; rewrite Hcached; destruct cached; reflexivity|].
  split.
  - intros r Hr Hu Hd Hp Hmd. unfold run, getQueryResultsFromS3 in Hr.
    rewrite (statement_not _ _ Hu), (statement_not _ _ Hd), Hp, Hcached in Hr.
    cbn [orb] in Hr.
    unfold sendS3, bind, await, lift, ret, metadataOf in Hr. rewrite Hmd in Hr.
    destruct (s3_object (s3ParamsOf params)) as [input|e];
      simpl in Hr; [|discriminate].
    destruct (formatJson (config params)).
    + destruct (cleanUpDML csv input (ignoreEmpty (config params)) context);
        simpl in Hr; try discriminate.
      destruct cached as [md|e]; simpl in Hr; [|discriminate].
      injection Hr as <-. exists md. split; reflexivity.
    + unfold getRawResultsFromS3 in Hr.
      destruct cached as [md|e]; simpl in Hr; [|discriminate].
      injection Hr as <-. exists md. split; reflexivity.
  - intros context0 pre data Hpre Hs polled.
    unfold polled, checkIfExecutionCompleted.
    rewrite (keepCheckingRecursively_prefix athena_results (config params) pre
               _ _ _ Hpre).
    simpl. rewrite Hs. simpl.
    unfold outcomeOf, contextOf, traceOf. simpl.
    split; [reflexivity|]. split; [reflexivity|].
    rewrite !countResults_app, countResults_pollsOf.
    rewrite (Hcount {| s3Metadata := Some (athena_results (metadataRequest (config params))) |}
               _ eq_refl).
    unfold countResults, metadataRequest. simpl.
    rewrite String.eqb_refl. reflexivity.
Qed.

End RetrieverFacts.

(** C3, as stated, fails on both counts.  In a boolean column the cells "1"
    and "NULL" are neither true nor false in any case, and nothing is
    thrown for them.  And in a full retrieval of the rows TRUE and maybe,
    the second row throws and the record of the first is delivered all the
    same: a partial result. *)
Lemma boolean_column_accepts_json :
  addDataType [("x", "1")] [("x", "boolean")] =
    Ok [("x", Num (Decimal false 1 0))] /\
  addDataType [("x", "NULL")] [("x", "boolean")] = Ok [("x", Null)] /\
  toLowerCase "1" <> "true" /\ toLowerCase "1" <> "false" /\
  toLowerCase "NULL" <> "true" /\ toLowerCase "NULL" <> "false" /\
  addDataType [("x", "maybe")] [("x", "boolean")] = Throw SyntaxError /\
  snd (getQueryResultsFromS3 noResults noObject noLines trueThenMaybe
         typedParams (warmed [column "x" "boolean"])) =
    Resolved {| items := Records [[("x", Bool_ true)]]; nextToken := None;
                metadata := IsNull |}.
Proof. repeat split; discriminate. Qed.

(** C3, as the code has it: in a boolean column a cell that is not empty is
    stored as [JSON.parse] of its lower-cased text.  When that text is not a
    JSON text, as for "maybe", a SyntaxError is thrown and no record is
    made of the row; in a typed retrieval by pages the retrieval is then
    rejected, and no records are delivered.  When it is, the parsed value
    is stored (under a name other than [__proto__]): true and false for
    the two words, but also the value of any other JSON text. *)
Theorem boolean_cell_is_json_parsed
    (input dataTypes : Obj string) (key value : string) :
  get key input = Some value -> value <> "" ->
  get key dataTypes = Some "boolean" ->
  typedCell input dataTypes key = JSON.parse (toLowerCase value) /\
  (toLowerCase value = "true" -> typedCell input dataTypes key = Ok (Bool_ true)) /\
  (toLowerCase value = "false" -> typedCell input dataTypes key = Ok (Bool_ false)) /\
  (toLowerCase value = "maybe" -> typedCell input dataTypes key = Throw SyntaxError) /\
  (forall out, addDataType input dataTypes = Ok out ->
               exists v, JSON.parse (toLowerCase value) = Ok v /\
                         (key <> "__proto__" -> get key out = Some v)) /\
  (forall t, JSON.parse (toLowerCase value) = Throw t ->
     t = SyntaxError /\
     (exists t', addDataType input dataTypes = Throw t') /\
     forall athena_results s3_object readline csv params queryResults
            columns row,
       statementType params <> "UTILITY" ->
       statementType params <> "DDL" ->
       truthyNumber (pagination (config params)) = true ->
       formatJson (config params) = true ->
       athena_results (paginationParamsOf params) = Fulfilled queryResults ->
       dataTypes = columnInfoObjectOf columns ->
       In row (skipn (paginationFactorOf params) (Rows queryResults)) ->
       fillRowObject (columnNamesOf columns) 0 (Data row) [] = input ->
       exists t',
         cleanUpPaginatedDML queryResults (paginationFactorOf params)
           (warmed columns) = Rejected t' /\
         snd (getQueryResultsFromS3 athena_results s3_object readline csv
                params (warmed columns)) = Rejected t').
Proof.
  intros Hget Hne Hty.
  assert (Hcell : typedCell input dataTypes key = JSON.parse (toLowerCase value)).
  { rewrite (typedCell_value _ _ _ _ Hget Hne), Hty. reflexivity. }
  split; [exact Hcell|].
  split; [intros E; rewrite Hcell, E; reflexivity|].
  split; [intros E; rewrite Hcell, E; reflexivity|].
  split; [intros E; rewrite Hcell, E; reflexivity|].
  split.
  - intros out Hok. pose proof (addDataType_get _ _ _ key Hok) as H.
    rewrite Hget in H. destruct H as (v & Hv & Hout).
    exists v. split; [congruence | intros _; exact Hout].
  - intros t Hthrow.
    assert (Hadd : exists t', addDataType input dataTypes = Throw t').
    { unfold addDataType. apply (addDataType_loop_throw _ _ _ _ key t).
      - apply get_in_keys. congruence.
      - congruence. }
    split; [|split; [exact Hadd|]].
    + unfold JSON.parse in Hthrow.
      destruct (JSON.lex _ _) as [ts|]; [destruct (JSON.run _ ts)|]; congruence.
    + intros athena_results s3_object readline csv params queryResults columns
             row Hu Hd Hp Hf Hreply -> Hin Hrow.
      destruct Hadd as [t' Hadd]. apply in_split in Hin as (before & after & Hrows).
      rewrite (getQueryResultsFromS3_typed_page _ _ _ _ _ _ Hu Hd Hp Hf), Hreply.
      rewrite cleanUpPaginatedDML_warmed, Hrows.
      destruct (formatRows_throw (columnInfoObjectOf columns)
                  (columnNamesOf columns) before row after t')
        as [t'' ->].
      * rewrite Hrow. exact Hadd.
      * exists t''. split; reflexivity.
Qed.

Lemma boolean_cell_is_json_parsed_witness :
  typedCell [("x", "maybe")] [("x", "boolean")] "x" = Throw SyntaxError /\
  addDataType [("x", "maybe")] [("x", "boolean")] = Throw SyntaxError /\
  exists t',
    snd (getQueryResultsFromS3
           (pagedEngine [column "x" "boolean"]
              [ {| Data := [cell "x"] |}; {| Data := [cell "TRUE"] |};
                {| Data := [cell "maybe"] |} ])
           noObject noLines noCsvRows (pagedParams None)
           (warmed [column "x" "boolean"])) = Rejected t'.
Proof.
  pose proof (boolean_cell_is_json_parsed [("x", "maybe")] [("x", "boolean")]
                "x" "maybe" eq_refl) as H.
  destruct H as (_ & _ & _ & Hmaybe & _ & Hthrow).
  - discriminate.
  - reflexivity.
  - split; [apply Hmaybe; reflexivity|]. split; [reflexivity|].
    destruct (Hthrow SyntaxError eq_refl) as (_ & _ & Hpage).
    edestruct (Hpage
                 (pagedEngine [column "x" "boolean"]
                    [ {| Data := [cell "x"] |}; {| Data := [cell "TRUE"] |};
                      {| Data := [cell "maybe"] |} ])
                 noObject noLines noCsvRows (pagedParams None)
                 {| Rows := [ {| Data := [cell "x"] |}; {| Data := [cell "TRUE"] |};
                              {| Data := [cell "maybe"] |} ];
                    ColumnInfo_ := [column "x" "boolean"];
                    out_NextToken := None |}
                 [column "x" "boolean"] {| Data := [cell "maybe"] |})
      as (t' & _ & Hrun).
    + discriminate.
    + discriminate.
    + reflexivity.
    + reflexivity.
    + reflexivity.
    + reflexivity.
    + simpl. right. left. reflexivity.
    + reflexivity.
    + exists t'. exact Hrun.
Defined.

Lemma paginated_typed_pages_witness :
  getQueryResultsFromS3 (pagedEngine sampleColumns (sampleHeader :: sampleData))
    noObject noLines noCsvRows (pagedParams None) (warmed sampleColumns) =
  ([Send (GetQueryResultsCommand
            {| gqr_QueryExecutionId := "q-1"; MaxResults := 3;
               NextToken := None |})],
   Resolved {| items := Records [one 1; one 2]; nextToken := Some "3";
               metadata := Has sampleColumns |}) /\
  getQueryResultsFromS3 (pagedEngine sampleColumns (sampleHeader :: sampleData))
    noObject noLines noCsvRows (pagedParams (Some "3")) (warmed sampleColumns) =
  ([Send (GetQueryResultsCommand
            {| gqr_QueryExecutionId := "q-1"; MaxResults := 2;
               NextToken := Some "3" |})],
   Resolved {| items := Records [one 3; one 4]; nextToken := Some "5";
               metadata := Has sampleColumns |}).
Proof.
  split.
  - refine (proj1 (paginated_typed_pages noObject noLines noCsvRows
                     sampleColumns sampleColumns sampleHeader sampleData
                     (pagedParams None) 2 _ _ _ _ _) _);
      try reflexivity; try discriminate.
  - refine (proj1 (proj2 (paginated_typed_pages noObject noLines noCsvRows
                     sampleColumns sampleColumns sampleHeader sampleData
                     (pagedParams (Some "3")) 2 _ _ _ _ _)) 2%nat _);
      try reflexivity; try discriminate.
Defined.

Lemma cached_schema_is_reused_witness :
  countResults (metadataRequest (pagedConfig None))
    (fst (getQueryResultsFromS3
            (pagedEngine sampleColumns (sampleHeader :: sampleData))
            noObject noLines noCsvRows (pagedParams None)
            (warmed sampleColumns))) = 0%nat.
Proof.
  exact (proj1 (proj2 (cached_schema_is_reused noObject noLines noCsvRows
                         (pagedEngine sampleColumns (sampleHeader :: sampleData))
                         (pagedParams None) (warmed sampleColumns) _ eq_refl))).
Defined.

(** * Further properties *)

(** ** The launcher and the poller on any script *)

(** X1: Whatever the engine answers, the launcher sends the same submission
    each time, arms no timer other than 2000 ms, sends no more than one
    submission per answer, and every submission but a settling one is
    followed by its timer. *)
Theorem startQueryExecution_trace (config : Config)
    (script : list (Promise StartQueryExecutionOutput)) :
  Forall (eq 2000) (timeouts (fst (startQueryExecution config script))) /\
  Forall (eq (StartQueryExecutionCommand (startParams config)))
         (sends (fst (startQueryExecution config script))) /\
  (List.length (sends (fst (startQueryExecution config script)))
   <= List.length script)%nat /\
  List.length (sends (fst (startQueryExecution config script))) =
  (List.length (timeouts (fst (startQueryExecution config script)))
   + match snd (startQueryExecution config script) with
     | Pending => 0
     | _ => 1
     end)%nat.
Proof.
  unfold startQueryExecution.
  induction script as [|[data|err] script IH]; simpl.
  - repeat split; constructor.
  - split; [constructor|]. split; [repeat constructor|]. split; [lia | reflexivity].
  - destruct (isCommonAthenaError (code err)).
    + destruct (startQueryExecutionRecursively (startParams config) script)
        as [tr out]. simpl in *.
      destruct IH as (Ht & Hs & Hlen & Hcount).
      split; [constructor; auto|]. split; [constructor; auto|].
      split; lia.
    + simpl. split; [constructor|]. split; [repeat constructor|].
      split; [lia | reflexivity].
Qed.

(** X3: A fault that is not transient ends the polling: the promise is rejected
    with the error object as it came, the context is left as it was, and
    the poll that met the fault is the last request. *)
Theorem checkIfExecutionCompleted_fatal_fault
    (athena_results : GetQueryResultsInput -> Promise GetQueryResultsOutput)
    (config : Config) (context : Context)
    (pre : list (Promise GetQueryExecutionOutput)) (err : jserror)
    (rest : list (Promise GetQueryExecutionOutput)) :
  Forall (fun r => keepsPolling r = true) pre ->
  transient err = false ->
  checkIfExecutionCompleted athena_results config context
    (pre ++ RejectedP err :: rest) =
  ((pollsOf config (retry config) pre
    ++ [Send (GetQueryExecutionCommand (QueryExecutionId config))])%list,
   context, Rejected (ErrorObject err)).
Proof.
  intros Hpre Herr. unfold checkIfExecutionCompleted.
  rewrite (keepCheckingRecursively_prefix athena_results config pre _ _ _ Hpre).
  simpl. unfold transient in Herr. rewrite Herr. reflexivity.
Qed.

Lemma checkIfExecutionCompleted_fatal_fault_witness :
  checkIfExecutionCompleted noResults sampleConfig emptyContext
    [status "QUEUED" None; RejectedP (fault "AccessDeniedException");
     status "SUCCEEDED" None] =
  ([Send (GetQueryExecutionCommand "q-1"); SetTimeout 200;
    Send (GetQueryExecutionCommand "q-1")],
   emptyContext, Rejected (ErrorObject (fault "AccessDeniedException"))).
Proof.
  refine (checkIfExecutionCompleted_fatal_fault noResults sampleConfig
            emptyContext [status "QUEUED" None] (fault "AccessDeniedException")
            [status "SUCCEEDED" None] _ _).
  - repeat constructor.
  - reflexivity.
Defined.

(** X4: On SUCCEEDED the promise is resolved with the reply of the engine at
    once: the one-row request for the schema is sent and its promise is
    stored in the context, but not awaited, so that the outcome is the same
    whether that request will succeed or fail. *)
Theorem checkIfExecutionCompleted_succeeded
    (athena_results : GetQueryResultsInput -> Promise GetQueryResultsOutput)
    (config : Config) (context : Context)
    (pre : list (Promise GetQueryExecutionOutput))
    (data : GetQueryExecutionOutput)
    (rest : list (Promise GetQueryExecutionOutput)) :
  Forall (fun r => keepsPolling r = true) pre ->
  State (Status data) = "SUCCEEDED" ->
  checkIfExecutionCompleted athena_results config context
    (pre ++ Fulfilled data :: rest) =
  ((pollsOf config (retry config) pre
    ++ [Send (GetQueryExecutionCommand (QueryExecutionId config));
        Send (GetQueryResultsCommand (metadataRequest config))])%list,
   {| s3Metadata := Some (athena_results (metadataRequest config)) |},
   Resolved data).
Proof.
  intros Hpre Hs. unfold checkIfExecutionCompleted.
  rewrite (keepCheckingRecursively_prefix athena_results config pre _ _ _ Hpre).
  simpl. rewrite Hs. reflexivity.
Qed.

Lemma checkIfExecutionCompleted_succeeded_witness :
  checkIfExecutionCompleted
    (fun _ => RejectedP (fault "ThrottlingException"))
    sampleConfig emptyContext
    [status "RUNNING" None; status "SUCCEEDED" None] =
  ([Send (GetQueryExecutionCommand "q-1"); SetTimeout 200;
    Send (GetQueryExecutionCommand "q-1");
    Send (GetQueryResultsCommand (metadataRequest sampleConfig))],
   {| s3Metadata := Some (RejectedP (fault "ThrottlingException")) |},
   match status "SUCCEEDED" None with
   | Fulfilled data => Resolved data
   | RejectedP _ => Pending
   end).
Proof.
  refine (checkIfExecutionCompleted_succeeded
            (fun _ => RejectedP (fault "ThrottlingException"))
            sampleConfig emptyContext [status "RUNNING" None] _ [] _ _).
  - repeat constructor.
  - reflexivity.
Defined.

(** X5: How a poll can end, on any script.  Resolved: the reply is one of the
    script and says SUCCEEDED, the context holds the promise of the schema
    and the one-row request was sent once.  Rejected: with the reason of a
    reply that says FAILED, or with a fault of the script that is not
    transient.  Otherwise, every reply of the script made the poller poll
    again, one poll a reply: the loop has no bound of its own.  Unless
    resolved, the context is untouched and the one-row request is not sent.
    Every timer is the interval of the caller or 2000 ms. *)
Theorem checkIfExecutionCompleted_outcomes
    (athena_results : GetQueryResultsInput -> Promise GetQueryResultsOutput)
    (config : Config) (context : Context)
    (script : list (Promise GetQueryExecutionOutput)) :
  match outcomeOf (checkIfExecutionCompleted athena_results config context script) with
  | Resolved data =>
      In (Fulfilled data) script /\ State (Status data) = "SUCCEEDED" /\
      contextOf (checkIfExecutionCompleted athena_results config context script) =
        {| s3Metadata := Some (athena_results (metadataRequest config)) |} /\
      countResults (metadataRequest config)
        (traceOf (checkIfExecutionCompleted athena_results config context script))
      = 1%nat
  | Rejected t =>
      ((exists data, In (Fulfilled data) script /\
                     State (Status data) = "FAILED" /\
                     t = Reason (StateChangeReason (Status data))) \/
       (exists err, In (RejectedP err) script /\ transient err = false /\
                    t = ErrorObject err)) /\
      contextOf (checkIfExecutionCompleted athena_results config context script) =
        context /\
      countResults (metadataRequest config)
        (traceOf (checkIfExecutionCompleted athena_results config context script))
      = 0%nat
  | Pending =>
      Forall (fun r => keepsPolling r = true) script /\
      sends (traceOf (checkIfExecutionCompleted athena_results config context
                        script)) =
        repeat (GetQueryExecutionCommand (QueryExecutionId config))
               (List.length script) /\
      contextOf (checkIfExecutionCompleted athena_results config context script) =
        context /\
      countResults (metadataRequest config)
        (traceOf (checkIfExecutionCompleted athena_results config context script))
      = 0%nat
  end /\
  Forall (fun ms => ms = retry config \/ ms = 2000)
         (timeouts (traceOf (checkIfExecutionCompleted athena_results config
                               context script))).
Proof.
  unfold checkIfExecutionCompleted. generalize (retry config) at 1 2 3 4 5 6 7 8 9 10.
  cut (forall r0 r,
          (r0 = r \/ r0 = 2000) ->
          match outcomeOf (keepCheckingRecursively athena_results config r0 context script) with
          | Resolved data =>
              In (Fulfilled data) script /\ State (Status data) = "SUCCEEDED" /\
              contextOf (keepCheckingRecursively athena_results config r0 context script) =
              {| s3Metadata := Some (athena_results (metadataRequest config)) |} /\
              countResults (metadataRequest config)
                (traceOf (keepCheckingRecursively athena_results config r0 context script))
              = 1%nat
          | Rejected t =>
              ((exists data, In (Fulfilled data) script /\
                             State (Status data) = "FAILED" /\
                             t = Reason (StateChangeReason (Status data))) \/
               (exists err, In (RejectedP err) script /\ transient err = false /\
                            t = ErrorObject err)) /\
              contextOf (keepCheckingRecursively athena_results config r0 context script) =
              context /\
              countResults (metadataRequest config)
                (traceOf (keepCheckingRecursively athena_results config r0 context script))
              = 0%nat
          | Pending =>
              Forall (fun r => keepsPolling r = true) script /\
              sends (traceOf (keepCheckingRecursively athena_results config r0 context
                                script)) =
              repeat (GetQueryExecutionCommand (QueryExecutionId config))
                     (List.length script) /\
              contextOf (keepCheckingRecursively athena_results config r0 context script) =
              context /\
              countResults (metadataRequest config)
                (traceOf (keepCheckingRecursively athena_results config r0 context script))
              = 0%nat
          end /\
          Forall (fun ms => ms = r \/ ms = 2000)
                 (timeouts (traceOf (keepCheckingRecursively athena_results config
                                       r0 context script)))).
  { intros H r. apply (H r r). left. reflexivity. }
  induction script as [|[data|err] script IH]; intros r0 r Hr0.
  - simpl. repeat split; constructor.
  - simpl. unfold outcomeOf, contextOf, traceOf.
    destruct (String.eqb (State (Status data)) "SUCCEEDED") eqn:Hs; simpl.
    + apply String.eqb_eq in Hs. repeat split; auto.
      unfold countResults, metadataRequest. simpl.
      rewrite String.eqb_refl. reflexivity.
    + destruct (String.eqb (State (Status data)) "FAILED") eqn:Hf; simpl.
      * apply String.eqb_eq in Hf. repeat split; auto.
        left. exists data. auto.
      * specialize (IH r0 r Hr0).
        unfold outcomeOf, contextOf, traceOf in IH.
        destruct (keepCheckingRecursively athena_results config r0 context script)
          as [[tr ctx] out]. simpl in *.
        destruct IH as [IH Htimers].
        split; [|constructor; [tauto | exact Htimers]].
        destruct out as [d|t|].
        -- destruct IH as (Hin & Hst & Hctx & Hcount). repeat split; auto.
        -- destruct IH as (Hwhy & Hctx & Hcount). repeat split; auto.
           destruct Hwhy as [(d & Hin & Hd)|(e & Hin & He)];
             [left; exists d | right; exists e]; auto.
        -- destruct IH as (Hall & Hsends & Hctx & Hcount). repeat split; auto.
           ++ constructor; [|exact Hall]. simpl. unfold nonTerminal.
              rewrite Hs, Hf. reflexivity.
           ++ f_equal. exact Hsends.
  - simpl. unfold outcomeOf, contextOf, traceOf.
    destruct (isCommonAthenaError (code err)) eqn:He; simpl.
    + specialize (IH 2000 r (or_intror eq_refl)).
      unfold outcomeOf, contextOf, traceOf in IH.
      destruct (keepCheckingRecursively athena_results config 2000 context script)
        as [[tr ctx] out]. simpl in *.
      destruct IH as [IH Htimers].
      split; [|constructor; [tauto | exact Htimers]].
      destruct out as [d|t|].
      * destruct IH as (Hin & Hst & Hctx & Hcount). repeat split; auto.
      * destruct IH as (Hwhy & Hctx & Hcount). repeat split; auto.
        destruct Hwhy as [(d & Hin & Hd)|(e & Hin & He')];
          [left; exists d | right; exists e]; auto.
      * destruct IH as (Hall & Hsends & Hctx & Hcount). repeat split; auto.
        f_equal. exact Hsends.
    + repeat split; auto. right. exists err. auto.
Qed.

(** ** The location, split and joined *)

Lemma split_segments_noSlash s : Forall noSlash (split "/" s).
Proof.
  induction s as [|c s IH]; simpl.
  - repeat constructor. intros [].
  - destruct (Ascii.eqb c "/") eqn:Hc.
    + constructor; [intros [] | exact IH].
    + destruct (split "/" s) as [|h t]; inversion IH; subst.
      * repeat constructor. intros [H|[]]. apply Ascii.eqb_neq in Hc. congruence.
      * constructor; [|assumption].
        intros [H|H]; [apply Ascii.eqb_neq in Hc; congruence | contradiction].
Qed.

Lemma split_length s :
  List.length (split "/" s) =
  S (count_occ ascii_dec (list_ascii_of_string s) "/"%char).
Proof.
  induction s as [|c s IH]; simpl; [reflexivity|].
  destruct (Ascii.eqb c "/") eqn:Hc.
  - apply Ascii.eqb_eq in Hc. subst c.
    destruct (ascii_dec "/" "/"); [|congruence]. simpl. rewrite IH. reflexivity.
  - apply Ascii.eqb_neq in Hc.
    destruct (ascii_dec c "/"); [congruence|].
    destruct (split "/" s) as [|h t]; simpl in *; [discriminate | exact IH].
Qed.

(** X6: The bucket is never a path: it holds no slash.  The location is given
    back by the two segments dropped, the bucket and the key, joined by
    slashes (without the key when the location ends with the bucket). *)
Theorem s3ParamsOf_recompose (params : Params) (bucket : string) :
  Bucket (s3ParamsOf params) = Some bucket ->
  noSlash bucket /\
  exists scheme authority,
    noSlash scheme /\ noSlash authority /\
    (s3Output params = scheme ++ "/" ++ authority ++ "/" ++ bucket /\
     Key (s3ParamsOf params) = "" \/
     s3Output params =
       scheme ++ "/" ++ authority ++ "/" ++ bucket ++ "/" ++ Key (s3ParamsOf params)).
Proof.
  unfold s3ParamsOf, slice. simpl.
  pose proof (split_segments_noSlash (s3Output params)) as Hns.
  pose proof (join_split (s3Output params)) as Hjoin.
  destruct (split "/" (s3Output params)) as [|s0 [|s1 [|b rest]]];
    simpl; try discriminate.
  intros [= ->].
  inversion Hns as [|? ? H0 Hns1]; subst.
  inversion Hns1 as [|? ? H1 Hns2]; subst.
  inversion Hns2 as [|? ? Hb _]; subst.
  split; [exact Hb|]. exists s0, s1. split; [exact H0|]. split; [exact H1|].
  destruct rest as [|k rest].
  - left. split; [|reflexivity]. rewrite <- Hjoin. reflexivity.
  - right. rewrite <- Hjoin. reflexivity.
Qed.

Lemma s3ParamsOf_recompose_witness :
  noSlash "bucket" /\
  exists scheme authority,
    noSlash scheme /\ noSlash authority /\
    ("s3://bucket/out/q-1.csv" = scheme ++ "/" ++ authority ++ "/" ++ "bucket" /\
     Key (s3ParamsOf (pagedParams None)) = "" \/
     "s3://bucket/out/q-1.csv" =
       scheme ++ "/" ++ authority ++ "/" ++ "bucket" ++ "/"
       ++ Key (s3ParamsOf (pagedParams None))).
Proof.
  exact (s3ParamsOf_recompose (pagedParams None) "bucket" eq_refl).
Defined.

(** X7: There is no bucket exactly when the location has fewer than two
    slashes; the key is then empty. *)
Theorem s3ParamsOf_no_bucket (params : Params) :
  (Bucket (s3ParamsOf params) = None <->
   (count_occ ascii_dec (list_ascii_of_string (s3Output params)) "/"%char < 2)%nat)
  /\ (Bucket (s3ParamsOf params) = None -> Key (s3ParamsOf params) = "").
Proof.
  unfold s3ParamsOf, slice. simpl.
  pose proof (split_length (s3Output params)) as Hlen.
  destruct (split "/" (s3Output params)) as [|s0 [|s1 [|b rest]]];
    simpl in *; (split; [split|]); intros; try reflexivity; try discriminate; lia.
Qed.

(** ** Objects and the schema *)

Lemma keys_insert_in {V : Type} (k k0 : string) (v : V) (o : Obj V) :
  In k0 (keys (insert k v o)) <-> k0 = k \/ In k0 (keys o).
Proof.
  induction o as [|[k' v'] o IH]; simpl.
  - intuition.
  - destruct (precedes k k'); simpl; [intuition|]. rewrite IH. intuition.
Qed.

Lemma keys_insert_NoDup {V : Type} (k : string) (v : V) (o : Obj V) :
  ~ In k (keys o) -> NoDup (keys o) -> NoDup (keys (insert k v o)).
Proof.
  induction o as [|[k' v'] o IH]; simpl; intros Hk Hnd.
  - constructor; [intros [] | constructor].
  - destruct (precedes k k'); simpl.
    + constructor; [exact Hk | exact Hnd].
    + inversion Hnd; subst. constructor.
      * rewrite keys_insert_in. intros [->|H]; [apply Hk; left; reflexivity | auto].
      * apply IH; [intros H; apply Hk; right; exact H | assumption].
Qed.

Lemma keys_set_in {V : Type} (k k0 : string) (v : V) (o : Obj V) :
  In k0 (keys (set k v o)) <-> k0 = k \/ In k0 (keys o).
Proof.
  unfold set. destruct (get k o) eqn:E.
  - rewrite keys_update. split; [auto|].
    intros [->|H]; [apply get_in_keys; congruence | exact H].
  - apply keys_insert_in.
Qed.

Lemma keys_set_NoDup {V : Type} (k : string) (v : V) (o : Obj V) :
  NoDup (keys o) -> NoDup (keys (set k v o)).
Proof.
  unfold set. destruct (get k o) eqn:E.
  - rewrite keys_update. auto.
  - apply keys_insert_NoDup. intros H. apply get_in_keys in H. congruence.
Qed.

Lemma find_last {A : Type} (p : A -> bool) (l : list A) (a : A) :
  find p (l ++ [a]) =
  match find p l with
  | Some x => Some x
  | None => if p a then Some a else None
  end.
Proof.
  induction l as [|x l IH]; simpl; [reflexivity|].
  destruct (p x); [reflexivity | exact IH].
Qed.

Lemma keys_assign_in (k k0 v : string) (o : Obj string) :
  In k0 (keys (assign k v o)) <-> (k0 = k /\ k <> "__proto__") \/ In k0 (keys o).
Proof.
  unfold assign. destruct (String.eqb k "__proto__") eqn:E.
  - apply String.eqb_eq in E. tauto.
  - apply String.eqb_neq in E. rewrite keys_set_in. tauto.
Qed.

Lemma keys_assign_NoDup (k v : string) (o : Obj string) :
  NoDup (keys o) -> NoDup (keys (assign k v o)).
Proof.
  unfold assign. destruct (String.eqb k "__proto__"); [auto|].
  apply keys_set_NoDup.
Qed.

Lemma fold_set_get (l : list ColumnInfo) : forall (acc : Obj string) (n : string),
  n <> "__proto__" ->
  get n (fold_left (fun o c => assign (Name c) (Type_ c) o) l acc) =
  match find (fun c => String.eqb (Name c) n) (rev l) with
  | Some c => Some (Type_ c)
  | None => get n acc
  end.
Proof.
  induction l as [|c l IH]; intros acc n Hn; simpl; [reflexivity|].
  rewrite IH, find_last by exact Hn.
  destruct (find (fun c0 => String.eqb (Name c0) n) (rev l)); [reflexivity|].
  destruct (String.eqb (Name c) n) eqn:E.
  - apply String.eqb_eq in E. subst n. apply get_assign_eq. exact Hn.
  - apply String.eqb_neq in E. apply get_assign_ne. exact E.
Qed.

Lemma fold_set_get_proto (l : list ColumnInfo) : forall acc : Obj string,
  get "__proto__" (fold_left (fun o c => assign (Name c) (Type_ c) o) l acc) =
  get "__proto__" acc.
Proof.
  induction l as [|c l IH]; intros acc; simpl; [reflexivity|].
  rewrite IH. apply get_assign_proto.
Qed.

Lemma fold_set_keys_in (l : list ColumnInfo) : forall (acc : Obj string) (n : string),
  In n (keys (fold_left (fun o c => assign (Name c) (Type_ c) o) l acc)) <->
  (In n (map Name l) /\ n <> "__proto__") \/ In n (keys acc).
Proof.
  induction l as [|c l IH]; intros acc n; simpl; [tauto|].
  rewrite IH, keys_assign_in. split.
  - intros [H|[[-> H]|H]]; auto.
    left. split; [right; apply H | apply H].
  - intros [[[<-|H] Hn]|H]; auto.
Qed.

Lemma fold_set_keys_NoDup (l : list ColumnInfo) : forall acc : Obj string,
  NoDup (keys acc) ->
  NoDup (keys (fold_left (fun o c => assign (Name c) (Type_ c) o) l acc)).
Proof.
  induction l as [|c l IH]; intros acc Hnd; simpl; [exact Hnd|].
  apply IH, keys_assign_NoDup, Hnd.
Qed.

(** X8: The object of types made from the columns of the schema has one
    property for each distinct column name other than [__proto__], and no
    other: a column named [__proto__] leaves no property.  When a name
    occurs more than once, the type kept is that of the first column of
    that name. *)
Theorem columnInfoObjectOf_lookup (columns : list ColumnInfo) (name : string) :
  get name (columnInfoObjectOf columns) =
    (if String.eqb name "__proto__" then None
     else option_map Type_ (find (fun c => String.eqb (Name c) name) columns)) /\
  (In name (keys (columnInfoObjectOf columns)) <->
   In name (map Name columns) /\ name <> "__proto__") /\
  NoDup (keys (columnInfoObjectOf columns)).
Proof.
  unfold columnInfoObjectOf. split; [|split].
  - destruct (String.eqb name "__proto__") eqn:E.
    + apply String.eqb_eq in E. subst name. apply fold_set_get_proto.
    + apply String.eqb_neq in E. rewrite fold_set_get, rev_involutive by exact E.
      simpl. destruct (find _ columns); reflexivity.
  - rewrite fold_set_keys_in, map_rev, <- in_rev. simpl. tauto.
  - apply fold_set_keys_NoDup. constructor.
Qed.

(** X9: The names matched by position with the cells of a row are distinct and
    are the column names of the schema other than [__proto__]; there are
    as many of them as columns exactly when no name occurs twice and no
    column is named [__proto__], and then (array indices apart) name [j]
    is that of column [j]. *)
Theorem columnNamesOf_names (columns : list ColumnInfo) :
  NoDup (columnNamesOf columns) /\
  (forall name, In name (columnNamesOf columns) <->
                In name (map Name columns) /\ name <> "__proto__") /\
  (List.length (columnNamesOf columns) <= List.length columns)%nat /\
  (List.length (columnNamesOf columns) = List.length columns <->
   NoDup (map Name columns) /\ ~ In "__proto__" (map Name columns)) /\
  (NoDup (map Name columns) ->
   Forall (fun c => ordinaryName (Name c) = true) columns ->
   forall j, (j < List.length columns)%nat ->
             nth j (columnNamesOf columns) "undefined" =
             Name (nth j columns (column "undefined" ""))).
Proof.
  assert (Hnd : NoDup (keys (columnInfoObjectOf columns))).
  { apply fold_set_keys_NoDup. constructor. }
  assert (Hin : forall name,
             In name (columnNamesOf columns) <->
             In name (map Name columns) /\ name <> "__proto__").
  { intros name. unfold columnNamesOf, columnInfoObjectOf. rewrite <- in_rev.
    rewrite fold_set_keys_in, map_rev, <- in_rev. simpl. tauto. }
  assert (Hnd' : NoDup (columnNamesOf columns)).
  { unfold columnNamesOf. apply NoDup_rev. exact Hnd. }
  assert (Hincl : incl (columnNamesOf columns) (map Name columns)).
  { intros n Hn. apply Hin, Hn. }
  assert (Hle : (List.length (columnNamesOf columns) <= List.length (map Name columns))%nat).
  { apply NoDup_incl_length; assumption. }
  rewrite length_map in Hle.
  split; [exact Hnd'|]. split; [exact Hin|]. split; [exact Hle|]. split.
  - split.
    + intros Hlen. split.
      * apply NoDup_incl_NoDup with (l := columnNamesOf columns).
        -- exact Hnd'.
        -- rewrite length_map. lia.
        -- exact Hincl.
      * intros Hproto.
        assert (Hback : incl (map Name columns) (columnNamesOf columns)).
        { apply NoDup_length_incl; [exact Hnd' | rewrite length_map; lia | exact Hincl]. }
        apply Hback, Hin in Hproto. destruct Hproto as [_ Hne]. congruence.
    + intros [Hnames Hproto].
      assert (List.length (map Name columns) <= List.length (columnNamesOf columns))%nat.
      { apply NoDup_incl_length; [exact Hnames|]. intros n Hn. apply Hin.
        split; [exact Hn|]. intros ->. contradiction. }
      rewrite length_map in H. lia.
  - intros Hnames Hidx j Hj.
    rewrite (columnNamesOf_positions _ Hnames Hidx).
    change "undefined" with (Name (column "undefined" "")) at 1.
    apply map_nth.
Qed.

(** ** Records and rows *)

Lemma JSON_parse_throws text t : JSON.parse text = Throw t -> t = SyntaxError.
Proof.
  unfold JSON.parse.
  destruct (JSON.lex _ _) as [ts|]; [destruct (JSON.run _ ts)|]; congruence.
Qed.

Lemma BigInt_throws s t : BigInt s = Throw t -> t = SyntaxError.
Proof.
  unfold BigInt. destruct (trim s); [discriminate|].
  destruct (nonDecimalIntegerLiteral _); [discriminate|].
  destruct (signOf _) as [neg r]. destruct (allDigits 10 r); congruence.
Qed.

(** What makes [convert] throw. *)
Lemma convert_throws declared value t :
  convert declared value = Throw t ->
  t = SyntaxError /\
  (declared = Some "boolean" /\ JSON.parse (toLowerCase value) = Throw SyntaxError \/
   declared = Some "bigint" /\ BigInt value = Throw SyntaxError).
Proof.
  unfold convert, isType.
  destruct (opt_string_eqb declared "varchar"); [discriminate|].
  destruct (opt_string_eqb declared "boolean") eqn:Eb.
  { intros H. pose proof (JSON_parse_throws _ _ H) as ->.
    apply opt_string_eqb_eq in Eb. auto. }
  destruct (opt_string_eqb declared "bigint") eqn:Ei.
  { destruct (BigInt value) as [z|t'] eqn:Hb; [discriminate|].
    intros [= <-]. pose proof (BigInt_throws _ _ Hb) as ->.
    apply opt_string_eqb_eq in Ei. auto. }
  destruct (_ || _)%bool; discriminate.
Qed.

Lemma addDataType_loop_throws input dataTypes todo : forall acc t,
  addDataType_loop todo input dataTypes acc = Throw t ->
  exists key, In key todo /\ typedCell input dataTypes key = Throw t.
Proof.
  induction todo as [|k todo IH]; intros acc t H; simpl in H; [discriminate|].
  pose proof (typedCell_step input dataTypes k) as Hk. cbv zeta in Hk.
  destruct (String.eqb match get k input with Some s => s | None => "" end "").
  - destruct (IH _ _ H) as (key & Hin & Hcell). exists key. simpl. auto.
  - destruct (convert _ _) as [v|t'] eqn:Hc.
    + destruct (IH _ _ H) as (key & Hin & Hcell). exists key. simpl. auto.
    + injection H as <-. exists k. simpl. auto.
Qed.

(** X10: A row fails to become a record for one reason only: one of its cells
    that is not empty stands in a boolean column and its lower-cased text is
    not a JSON text, or stands in a bigint column and its text is not an
    integer literal.  What is thrown is a SyntaxError. *)
Theorem addDataType_throws (input dataTypes : Obj string) (t : thrown) :
  addDataType input dataTypes = Throw t ->
  t = SyntaxError /\
  exists key value,
    get key input = Some value /\ value <> "" /\
    (get key dataTypes = Some "boolean" /\
     JSON.parse (toLowerCase value) = Throw SyntaxError \/
     get key dataTypes = Some "bigint" /\ BigInt value = Throw SyntaxError).
Proof.
  unfold addDataType. intros H.
  destruct (addDataType_loop_throws _ _ _ _ _ H) as (key & Hin & Hcell).
  unfold typedCell in Hcell.
  destruct (get key input) as [[|c s]|] eqn:Hget; try discriminate.
  destruct (convert_throws _ _ _ Hcell) as [-> Hwhy].
  split; [reflexivity|]. exists key, (String c s).
  split; [exact Hget|]. split; [discriminate | exact Hwhy].
Qed.

Lemma addDataType_throws_witness :
  SyntaxError = SyntaxError /\
  exists key value,
    get key [("n", "1.5")] = Some value /\ value <> "" /\
    (get key [("n", "bigint")] = Some "boolean" /\
     JSON.parse (toLowerCase value) = Throw SyntaxError \/
     get key [("n", "bigint")] = Some "bigint" /\ BigInt value = Throw SyntaxError).
Proof.
  exact (addDataType_throws [("n", "1.5")] [("n", "bigint")] SyntaxError eq_refl).
Defined.

Lemma addDataType_loop_NoDup input dataTypes todo : forall acc out,
  addDataType_loop todo input dataTypes acc = Ok out ->
  NoDup (keys acc) -> NoDup (keys out).
Proof.
  induction todo as [|k todo IH]; intros acc out H Hnd; simpl in H.
  - injection H as <-. exact Hnd.
  - destruct (String.eqb _ _).
    + eapply IH; [exact H | apply keys_set_NoDup, Hnd].
    + destruct (convert _ _); [|discriminate].
      eapply IH; [exact H | apply keys_set_NoDup, Hnd].
Qed.

Lemma addDataType_loop_keys input dataTypes todo : forall acc out,
  addDataType_loop todo input dataTypes acc = Ok out ->
  NoDup (keys acc ++ todo)%list ->
  Forall (fun k => arrayIndex k = None) todo ->
  keys out = (keys acc ++ todo)%list.
Proof.
  induction todo as [|k todo IH]; intros acc out H Hnd Hidx; simpl in H.
  - injection H as <-. rewrite app_nil_r. reflexivity.
  - inversion Hidx as [|? ? Hk Hidx']; subst.
    assert (Hfresh : get k acc = None).
    { destruct (get k acc) eqn:E; [|reflexivity]. exfalso.
      apply NoDup_remove_2 in Hnd. apply Hnd, in_or_app. left.
      apply get_in_keys. congruence. }
    assert (Hset : forall v, keys (set k v acc) = (keys acc ++ [k])%list).
    { intros v. unfold set. rewrite Hfresh, (insert_last _ _ _ Hk), keys_app.
      reflexivity. }
    assert (Hnd' : forall v, NoDup (keys (set k v acc) ++ todo)%list).
    { intros v. rewrite Hset, <- app_assoc. exact Hnd. }
    destruct (String.eqb _ _).
    + rewrite (IH _ _ H (Hnd' _) Hidx'), Hset, <- app_assoc. reflexivity.
    + destruct (convert _ _) as [v|]; [|discriminate].
      rewrite (IH _ _ H (Hnd' _) Hidx'), Hset, <- app_assoc. reflexivity.
Qed.

(** X11: A record of a row that has no property named [__proto__] has the
    properties of its row, no more and no fewer, each once; and in the
    same order when no name of the row is an array index (such names are
    enumerated first by any object). *)
Theorem addDataType_keys (input dataTypes : Obj string) (out : Obj jsval) :
  addDataType input dataTypes = Ok out ->
  ~ In "__proto__" (keys input) ->
  NoDup (keys out) /\
  (forall key, In key (keys out) <-> In key (keys input)) /\
  (NoDup (keys input) ->
   Forall (fun k => arrayIndex k = None) (keys input) ->
   keys out = keys input).
Proof.
  intros Hok _. split; [|split].
  - unfold addDataType in Hok.
    apply (addDataType_loop_NoDup _ _ _ _ _ Hok). constructor.
  - intros key. pose proof (addDataType_get _ _ _ key Hok) as H.
    rewrite <- !get_in_keys.
    destruct (get key input).
    + destruct H as (v & _ & ->). split; discriminate.
    + rewrite H. tauto.
  - intros Hnd Hidx. unfold addDataType in Hok.
    apply (addDataType_loop_keys _ _ _ _ _ Hok); assumption.
Qed.

Lemma addDataType_keys_witness :
  NoDup (keys [("a", Big 42); ("b", Bool_ true); ("c", @Null)]) /\
  (forall key, In key (keys [("a", Big 42); ("b", Bool_ true); ("c", @Null)]) <->
               In key (keys [("a", "42"); ("b", "TRUE"); ("c", "")])) /\
  (NoDup (keys [("a", "42"); ("b", "TRUE"); ("c", "")]) ->
   Forall (fun k => arrayIndex k = None) (keys [("a", "42"); ("b", "TRUE"); ("c", "")]) ->
   keys [("a", Big 42); ("b", Bool_ true); ("c", @Null)] =
   keys [("a", "42"); ("b", "TRUE"); ("c", "")]).
Proof.
  refine (addDataType_keys [("a", "42"); ("b", "TRUE"); ("c", "")]
            [("a", "bigint"); ("b", "boolean"); ("c", "varchar")] _ eq_refl _).
  simpl. intuition discriminate.
Defined.

(** X12: A cell that is not empty and whose column is declared varchar, is of a
    type the [switch] does not list, or is not in the schema at all, is
    kept as the string it is. *)
Theorem addDataType_passthrough (input dataTypes : Obj string)
    (key value : string) (out : Obj jsval) :
  get key input = Some value -> value <> "" ->
  (forall ty, get key dataTypes = Some ty ->
              ty <> "boolean" /\ ty <> "bigint" /\ ~ In ty numericTypes) ->
  addDataType input dataTypes = Ok out ->
  get key out = Some (Str (unitsOf value)).
Proof.
  intros Hget Hne Hty Hok.
  pose proof (addDataType_get _ _ _ key Hok) as H. rewrite Hget in H.
  destruct H as (v & Hv & ->). f_equal.
  rewrite (typedCell_value _ _ _ _ Hget Hne) in Hv.
  unfold convert, isType in Hv.
  destruct (get key dataTypes) as [ty|]; [|simpl in Hv; congruence].
  destruct (Hty ty eq_refl) as (Hb & Hi & Hn).
  simpl in Hv. destruct (String.eqb ty "varchar"); [congruence|].
  apply String.eqb_neq in Hb, Hi. rewrite Hb, Hi in Hv.
  assert (Hnum : (String.eqb ty "integer" || String.eqb ty "tinyint" ||
                  String.eqb ty "smallint" || String.eqb ty "int" ||
                  String.eqb ty "float" || String.eqb ty "double")%bool = false).
  { apply not_true_is_false. intros Htrue. apply Hn. unfold numericTypes.
    repeat (apply orb_prop in Htrue as [Htrue|Htrue]);
      apply String.eqb_eq in Htrue; subst; simpl; tauto. }
  rewrite Hnum in Hv. congruence.
Qed.

Lemma addDataType_passthrough_witness :
  get "d" [("d", Str (unitsOf "2024-01-01"))] = Some (Str (unitsOf "2024-01-01")).
Proof.
  refine (addDataType_passthrough [("d", "2024-01-01")] [("d", "date")]
            "d" "2024-01-01" _ eq_refl _ _ eq_refl).
  - discriminate.
  - intros ty [= <-]. repeat split; try discriminate.
    simpl. intuition discriminate.
Defined.

(** X15: The records of a page are those of its rows, one for one and in the
    order of the rows; there are records only when every row gave one. *)
Theorem formatRows_rows (dataTypes : Obj string) (columnNames : list string)
    (rows : list Row) (l : list (Obj jsval)) :
  formatRows dataTypes columnNames rows = Ok l <->
  Forall2 (fun r rec =>
             addDataType (fillRowObject columnNames 0 (Data r) []) dataTypes
             = Ok rec) rows l.
Proof.
  revert l. induction rows as [|r rows IH]; intros l; simpl.
  - split; [intros [= <-]; constructor | intros H; inversion H; reflexivity].
  - split.
    + destruct (addDataType _ dataTypes) as [rec|] eqn:Hr; [|discriminate].
      destruct (formatRows dataTypes columnNames rows) as [recs|]; [|discriminate].
      intros [= <-]. constructor; [exact Hr | apply IH; reflexivity].
    + intros H. inversion H as [|? rec ? recs Hr Hrest]; subst.
      rewrite Hr. apply IH in Hrest. rewrite Hrest. reflexivity.
Qed.

(** ** The retriever on any input *)

Ltac retrieve_cases :=
  repeat match goal with
         | |- context [match ?p with Fulfilled _ => _ | RejectedP _ => _ end] =>
             destruct p eqn:?; cbn
         | |- context [match ?s with Resolved _ => _ | Rejected _ => _ | Pending => _ end] =>
             destruct s eqn:?; cbn
         | |- context [if ?b then _ else _] => destruct b eqn:?; cbn
         | |- context [match ?o with Some _ => _ | None => _ end] =>
             destruct o eqn:?; cbn
         end.

(** X17: Which requests a retrieval sends, whatever the clients answer: the
    object alone for a UTILITY or DDL statement, whatever the other
    options; else the page alone when a page size is set; else the object,
    preceded by the one-row request of the schema only when the metadata
    is asked for and the context holds no promise of it.  No timer is
    armed: the retriever never retries. *)
Theorem getQueryResultsFromS3_requests
    (athena_results : GetQueryResultsInput -> Promise GetQueryResultsOutput)
    (s3_object : S3Params -> Promise string)
    (readline : string -> list string)
    (csv : bool -> string -> list (Obj string))
    (params : Params) (context : Context) :
  sends (fst (getQueryResultsFromS3 athena_results s3_object readline csv
                params context)) =
  (if (String.eqb (statementType params) "UTILITY" ||
       String.eqb (statementType params) "DDL")%bool
   then [GetObjectCommand (s3ParamsOf params)]
   else if truthyNumber (pagination (config params))
   then [GetQueryResultsCommand (paginationParamsOf params)]
   else match s3Metadata context with
        | Some _ => [GetObjectCommand (s3ParamsOf params)]
        | None =>
            if includeMetadata (config params)
            then [GetQueryResultsCommand (metadataRequest (config params));
                  GetObjectCommand (s3ParamsOf params)]
            else [GetObjectCommand (s3ParamsOf params)]
        end) /\
  timeouts (fst (getQueryResultsFromS3 athena_results s3_object readline csv
                   params context)) = [].
Proof.
  unfold getQueryResultsFromS3, sendS3, sendAthena, metadataOf, bind, await,
    lift, ret, cleanUpNonDML, getRawResultsFromS3.
  retrieve_cases; split; reflexivity.
Qed.




(** X19: A retrieval by pages that is not typed hands the rows over as they
    came: without a cursor the page holds the header row and [P] data rows
    after it, [P + 1] rows when there are as many; with a cursor it holds
    [P] data rows.  The header is taken off for typed records only. *)
Theorem paginated_raw_pages
    (s3_object : S3Params -> Promise string)
    (readline : string -> list string)
    (csv : bool -> string -> list (Obj string))
    (columns : list ColumnInfo) (header : Row) (data : list Row)
    (params : Params) (context : Context) (P : Z) :
  0 < P ->
  pagination (config params) = P ->
  formatJson (config params) = false ->
  statementType params <> "UTILITY" ->
  statementType params <> "DDL" ->
  let engine := pagedEngine columns (header :: data) in
  let p := Z.to_nat P in
  (cfg_NextToken (config params) = None ->
   getQueryResultsFromS3 engine s3_object readline csv params context =
   ([Send (GetQueryResultsCommand
             {| gqr_QueryExecutionId := QueryExecutionId (config params);
                MaxResults := P + 1; NextToken := None |})],
    Resolved {| items := RawRows (header :: firstn p data);
                nextToken := cursorAfter data p;
                metadata := Has columns |})) /\
  (forall n,
      cfg_NextToken (config params) = Some (tokenOf (S n)) ->
      getQueryResultsFromS3 engine s3_object readline csv params context =
      ([Send (GetQueryResultsCommand
                {| gqr_QueryExecutionId := QueryExecutionId (config params);
                   MaxResults := P; NextToken := Some (tokenOf (S n)) |})],
       Resolved {| items := RawRows (firstn p (skipn n data));
                   nextToken := cursorAfter data (n + p);
                   metadata := Has columns |})).
Proof.
  intros HP Hpag Hfmt Hu Hd engine p.
  assert (Htruthy : truthyNumber (pagination (config params)) = true).
  { unfold truthyNumber. rewrite Hpag. apply negb_true_iff, Z.eqb_neq. lia. }
  apply String.eqb_neq in Hu, Hd.
  split.
  - intros Htok. unfold getQueryResultsFromS3.
    rewrite Hu, Hd, Htruthy, Hfmt. cbn [orb].
    unfold paginationParamsOf, paginationFactorOf. rewrite Htok, Hpag.
    cbn [truthyString Z.of_nat]. change (Z.pos (Pos.of_succ_nat 0)) with 1.
    unfold sendAthena, bind, await, lift, ret, engine, pagedEngine.
    cbn [NextToken MaxResults].
    replace (Z.to_nat (P + 1)) with (S p) by (unfold p; lia).
    reflexivity.
  - intros n Htok. unfold getQueryResultsFromS3.
    rewrite Hu, Hd, Htruthy, Hfmt. cbn [orb].
    unfold paginationParamsOf, paginationFactorOf. rewrite Htok, Hpag.
    rewrite tokenOf_nonempty. cbn [Z.of_nat]. rewrite Z.add_0_r.
    unfold sendAthena, bind, await, lift, ret, engine, pagedEngine.
    cbn [NextToken MaxResults]. rewrite positionOf_tokenOf. reflexivity.
Qed.

Lemma paginated_raw_pages_witness :
  getQueryResultsFromS3 (pagedEngine sampleColumns (sampleHeader :: sampleData))
    noObject noLines noCsvRows (rawPagedParams None) emptyContext =
  ([Send (GetQueryResultsCommand
            {| gqr_QueryExecutionId := "q-1"; MaxResults := 3;
               NextToken := None |})],
   Resolved {| items := RawRows [sampleHeader; {| Data := [cell "1"] |};
                                 {| Data := [cell "2"] |}];
               nextToken := Some "3"; metadata := Has sampleColumns |}).
Proof.
  refine (proj1 (paginated_raw_pages noObject noLines noCsvRows sampleColumns
                   sampleHeader sampleData (rawPagedParams None) emptyContext 2
                   _ _ _ _ _) _);
    try reflexivity; try discriminate.
Defined.

(** X20: Typed records need the schema the poller leaves in the context.  When
    the context holds none, or holds a promise that was rejected, a typed
    retrieval sends its request and then never settles, neither resolved
    nor rejected, even when the metadata is asked for. *)
Theorem typed_retrieval_without_schema_is_pending
    (athena_results : GetQueryResultsInput -> Promise GetQueryResultsOutput)
    (s3_object : S3Params -> Promise string)
    (readline : string -> list string)
    (csv : bool -> string -> list (Obj string))
    (params : Params) (context : Context) :
  (forall md, s3Metadata context <> Some (Fulfilled md)) ->
  formatJson (config params) = true ->
  statementType params <> "UTILITY" ->
  statementType params <> "DDL" ->
  (truthyNumber (pagination (config params)) = true ->
   forall queryResults,
     athena_results (paginationParamsOf params) = Fulfilled queryResults ->
     snd (getQueryResultsFromS3 athena_results s3_object readline csv params
            context) = Pending) /\
  (truthyNumber (pagination (config params)) = false ->
   forall body,
     s3_object (s3ParamsOf params) = Fulfilled body ->
     snd (getQueryResultsFromS3 athena_results s3_object readline csv params
            context) = Pending).
Proof.
  intros Hctx Hfmt Hu Hd. apply String.eqb_neq in Hu, Hd.
  assert (Htypes : getDataTypes context = Pending).
  { unfold getDataTypes. destruct (s3Metadata context) as [[md|e]|] eqn:E;
      [exfalso; apply (Hctx md); reflexivity | reflexivity | reflexivity]. }
  split; intros Hp.
  - intros qr Hpage. unfold getQueryResultsFromS3.
    rewrite Hu, Hd, Hp, Hfmt. cbn [orb].
    unfold sendAthena, bind, await, lift, ret, cleanUpPaginatedDML.
    rewrite Hpage, Htypes. reflexivity.
  - intros body Hbody. unfold getQueryResultsFromS3.
    rewrite Hu, Hd, Hp, Hfmt. cbn [orb].
    unfold sendAthena, sendS3, bind, await, lift, ret, cleanUpDML.
    rewrite Htypes.
    destruct (s3Metadata context); [|destruct (includeMetadata (config params))];
      rewrite Hbody; reflexivity.
Qed.

Lemma typed_retrieval_without_schema_is_pending_witness :
  snd (getQueryResultsFromS3
         (pagedEngine sampleColumns (sampleHeader :: sampleData))
         noObject noLines noCsvRows (pagedParams None) emptyContext) = Pending.
Proof.
  refine (proj1 (typed_retrieval_without_schema_is_pending
                   (pagedEngine sampleColumns (sampleHeader :: sampleData))
                   noObject noLines noCsvRows (pagedParams None) emptyContext
                   _ _ _ _) _ _ eq_refl);
    try reflexivity; try discriminate.
Defined.

(** X21: For a retrieval that is neither by pages nor of a UTILITY or DDL
    statement, the metadata of the result is null unless asked for; when
    asked for, it is that of the promise the context holds, or else of the
    one-row request sent for it. *)
Theorem metadata_only_when_requested
    (athena_results : GetQueryResultsInput -> Promise GetQueryResultsOutput)
    (s3_object : S3Params -> Promise string)
    (readline : string -> list string)
    (csv : bool -> string -> list (Obj string))
    (params : Params) (context : Context) (r : QueryResult) :
  statementType params <> "UTILITY" ->
  statementType params <> "DDL" ->
  truthyNumber (pagination (config params)) = false ->
  snd (getQueryResultsFromS3 athena_results s3_object readline csv params context)
  = Resolved r ->
  if includeMetadata (config params) then
    exists md,
      metadata r = Has (ColumnInfo_ md) /\
      match s3Metadata context with
      | Some cached => cached
      | None => athena_results (metadataRequest (config params))
      end = Fulfilled md
  else metadata r = IsNull.
Proof.
  intros Hu Hd Hp Hr. apply String.eqb_neq in Hu, Hd.
  unfold getQueryResultsFromS3 in Hr. rewrite Hu, Hd, Hp in Hr. cbn [orb] in Hr.
  unfold sendAthena, sendS3, metadataOf, bind, await, lift, ret,
    getRawResultsFromS3 in Hr.
  destruct (includeMetadata (config params)).
  - destruct (s3Metadata context) as [cached|]; simpl in Hr.
    + destruct (s3_object (s3ParamsOf params)); simpl in Hr; [|discriminate].
      destruct (formatJson (config params)).
      * destruct (cleanUpDML csv a (ignoreEmpty (config params)) context);
          simpl in Hr; try discriminate.
        destruct cached as [md|e]; simpl in Hr; [|discriminate].
        injection Hr as <-. exists md. auto.
      * destruct cached as [md|e]; simpl in Hr; [|discriminate].
        injection Hr as <-. exists md. auto.
    + destruct (s3_object (s3ParamsOf params)); simpl in Hr; [|discriminate].
      destruct (formatJson (config params)).
      * destruct (cleanUpDML csv a (ignoreEmpty (config params)) context);
          simpl in Hr; try discriminate.
        destruct (athena_results (metadataRequest (config params))) as [md|e];
          simpl in Hr; [|discriminate].
        injection Hr as <-. exists md. auto.
      * destruct (athena_results (metadataRequest (config params))) as [md|e];
          simpl in Hr; [|discriminate].
        injection Hr as <-. exists md. auto.
  - destruct (s3Metadata context) as [cached|]; simpl in Hr;
      (destruct (s3_object (s3ParamsOf params)); simpl in Hr; [|discriminate]);
      (destruct (formatJson (config params));
       [destruct (cleanUpDML csv a (ignoreEmpty (config params)) context);
        simpl in Hr; try discriminate|]);
      injection Hr as <-; reflexivity.
Qed.

Lemma metadata_only_when_requested_witness :
  metadata {| items := RawLines []; nextToken := None; metadata := IsNull |}
  = @IsNull (list ColumnInfo).
Proof.
  refine (metadata_only_when_requested noResults noObject noLines noCsvRows
            rawParams emptyContext _ _ _ _ eq_refl);
    try reflexivity; try discriminate.
Defined.

(** X22: The retriever does not handle the faults of the clients: a request for
    the object or for the page that the client rejects rejects the
    retrieval with the same error object, after that one request (and the
    one-row request before it, if one was due). *)
Theorem getQueryResultsFromS3_client_fault
    (athena_results : GetQueryResultsInput -> Promise GetQueryResultsOutput)
    (s3_object : S3Params -> Promise string)
    (readline : string -> list string)
    (csv : bool -> string -> list (Obj string))
    (params : Params) (context : Context) (err : jserror) :
  let utility := (String.eqb (statementType params) "UTILITY" ||
                  String.eqb (statementType params) "DDL")%bool in
  let paged := truthyNumber (pagination (config params)) in
  (if (utility || negb paged)%bool
   then s3_object (s3ParamsOf params) = RejectedP err
   else athena_results (paginationParamsOf params) = RejectedP err) ->
  snd (getQueryResultsFromS3 athena_results s3_object readline csv params context)
  = Rejected (ErrorObject err).
Proof.
  cbv zeta.
  unfold getQueryResultsFromS3, sendS3, sendAthena, metadataOf, bind, await,
    lift, ret.
  destruct (String.eqb (statementType params) "UTILITY" ||
            String.eqb (statementType params) "DDL")%bool; cbn [orb negb].
  - intros ->. reflexivity.
  - destruct (truthyNumber (pagination (config params))); cbn [negb].
    + intros ->. reflexivity.
    + intros ->.
      destruct (s3Metadata context); [|destruct (includeMetadata (config params))];
        reflexivity.
Qed.

Lemma getQueryResultsFromS3_client_fault_witness :
  snd (getQueryResultsFromS3 noResults
         (fun _ => RejectedP (fault "NoSuchKey")) noLines noCsvRows
         rawParams emptyContext) = Rejected (ErrorObject (fault "NoSuchKey")).
Proof.
  exact (getQueryResultsFromS3_client_fault noResults
           (fun _ => RejectedP (fault "NoSuchKey")) noLines noCsvRows
           rawParams emptyContext (fault "NoSuchKey") eq_refl).
Defined.

(** ** Text rows, lines and keys *)

(** X23: The promise of [cleanUpDML] is never rejected; and when the context
    holds the schema and every row of the text gives a record, it is
    resolved with these records, one for one and in the order of the
    rows. *)
Theorem cleanUpDML_records
    (csv : bool -> string -> list (Obj string))
    (input : string) (ignoreEmpty_ : bool) (context : Context) :
  (forall t, cleanUpDML csv input ignoreEmpty_ context <> Rejected t) /\
  (forall md l,
      s3Metadata context = Some (Fulfilled md) ->
      Forall2 (fun row rec =>
                 addDataType row (columnInfoObjectOf (ColumnInfo_ md)) = Ok rec)
              (csv ignoreEmpty_ input) l ->
      cleanUpDML csv input ignoreEmpty_ context = Resolved l).
Proof.
  unfold cleanUpDML, getDataTypes. split.
  - intros t. destruct (s3Metadata context) as [[md|e]|]; try discriminate.
    generalize (@nil (Obj jsval)).
    induction (csv ignoreEmpty_ input) as [|row rows IH]; intros acc; simpl;
      [discriminate|].
    destruct (addDataType row _); [apply IH | discriminate].
  - intros md l -> Hall.
    cut (forall acc, cleanUpDML_rows (columnInfoObjectOf (ColumnInfo_ md))
                       (csv ignoreEmpty_ input) acc = Resolved (acc ++ l)%list).
    { intros H. apply (H []). }
    induction Hall as [|row rec rows l Hrow _ IH]; intros acc; simpl.
    + rewrite app_nil_r. reflexivity.
    + rewrite Hrow, IH, <- app_assoc. reflexivity.
Qed.

Lemma split_segment_at sep a r :
  ~ In sep (list_ascii_of_string a) ->
  split sep (a ++ String sep r) = a :: split sep r.
Proof.
  induction a as [|c a IH]; simpl; intros Ha.
  - rewrite Ascii.eqb_refl. reflexivity.
  - assert (Hc : Ascii.eqb c sep = false) by (apply Ascii.eqb_neq; intuition).
    rewrite Hc, IH by intuition. reflexivity.
Qed.

Lemma indexOf_first c a r :
  ~ In c (list_ascii_of_string a) ->
  indexOf c (a ++ String c r) = Z.of_nat (String.length a).
Proof.
  induction a as [|c' a IH]; simpl; intros Ha.
  - rewrite Ascii.eqb_refl. reflexivity.
  - assert (Hc : Ascii.eqb c' c = false) by (apply Ascii.eqb_neq; intuition).
    rewrite Hc, IH by intuition.
    destruct (Z.of_nat (String.length a) <? 0) eqn:E; [apply Z.ltb_lt in E|]; lia.
Qed.

Lemma indexOf_absent c s : ~ In c (list_ascii_of_string s) -> indexOf c s = -1.
Proof.
  induction s as [|c' s IH]; simpl; intros Hs; [reflexivity|].
  assert (Hc : Ascii.eqb c' c = false) by (apply Ascii.eqb_neq; intuition).
  rewrite Hc, IH by intuition. reflexivity.
Qed.

Lemma trimEnd_idempotent s : trimEnd (trimEnd s) = trimEnd s.
Proof.
  induction s as [|c s IH]; simpl; [reflexivity|].
  destruct (trimEnd s) as [|c' t] eqn:E.
  - destruct (isStrWhiteSpace c) eqn:Hc; simpl; [reflexivity|].
    rewrite Hc. reflexivity.
  - change (trimEnd (String c (String c' t)))
      with (match trimEnd (String c' t) with
            | EmptyString =>
                if isStrWhiteSpace c then EmptyString else String c EmptyString
            | u => String c u
            end).
    rewrite IH. reflexivity.
Qed.

Lemma trimStart_trimEnd s :
  trimStart s = s -> trimStart (trimEnd s) = trimEnd s.
Proof.
  destruct s as [|c s]; simpl; [reflexivity|].
  destruct (isStrWhiteSpace c) eqn:Hc.
  - intros H. exfalso.
    assert (Hlen : forall u, (String.length (trimStart u) <= String.length u)%nat).
    { induction u as [|c' u IHu]; simpl; [lia|].
      destruct (isStrWhiteSpace c'); simpl; lia. }
    specialize (Hlen s). rewrite H in Hlen. simpl in Hlen. lia.
  - intros _. destruct (trimEnd s); simpl; rewrite Hc; reflexivity.
Qed.

Lemma trimStart_idempotent s : trimStart (trimStart s) = trimStart s.
Proof.
  induction s as [|c s IH]; simpl; [reflexivity|].
  destruct (isStrWhiteSpace c) eqn:Hc; [exact IH|]. simpl. rewrite Hc. reflexivity.
Qed.

(** What [trim] gives has no white space left to take off. *)
Lemma trim_idempotent s : trim (trim s) = trim s.
Proof.
  unfold trim.
  rewrite (trimStart_trimEnd (trimStart s) (trimStart_idempotent s)).
  apply trimEnd_idempotent.
Qed.

(** X24: How a line of the output of a UTILITY or DDL statement is read.  A line
    whose first TAB comes after some text is a key and a value: the text
    before that TAB and the text between it and the next TAB, both trimmed;
    what follows a second TAB is dropped.  Any other line, without a TAB or
    starting with one, is a row of its trimmed text, or nothing when that
    text is empty.  Keys and values are trimmed texts. *)
Theorem cleanUpNonDML_line_cases (line : string) :
  (forall key rest,
      line = key ++ String TAB rest -> key <> "" -> noTab key ->
      cleanUpNonDML_line line =
      [[(trim key, trim (hd EmptyString (split TAB rest)))]]) /\
  ((noTab line \/ exists rest, line = String TAB rest) ->
   cleanUpNonDML_line line =
   if String.eqb (trim line) "" then [] else [[("row", trim line)]]) /\
  (List.length (cleanUpNonDML_line line) <= 1)%nat /\
  (forall o k v, In o (cleanUpNonDML_line line) -> In (k, v) o ->
                 o = [(k, v)] /\ trim k = k /\ trim v = v).
Proof.
  assert (Hkv : forall key rest,
      line = key ++ String TAB rest -> key <> "" -> noTab key ->
      cleanUpNonDML_line line =
      [[(trim key, trim (hd EmptyString (split TAB rest)))]]).
  { intros key rest -> Hne Hkey. unfold cleanUpNonDML_line.
    rewrite (indexOf_first TAB key rest Hkey).
    assert (Hpos : (0 <? Z.of_nat (String.length key)) = true).
    { apply Z.ltb_lt. destruct key; [congruence | simpl; lia]. }
    rewrite Hpos, (split_segment_at TAB key rest Hkey). simpl.
    pose proof (split_nonempty TAB rest) as Hs.
    destruct (split TAB rest); [contradiction | reflexivity]. }
  assert (Hrow : (noTab line \/ exists rest, line = String TAB rest) ->
                 cleanUpNonDML_line line =
                 if String.eqb (trim line) "" then [] else [[("row", trim line)]]).
  { intros H. unfold cleanUpNonDML_line.
    assert (Hidx : (0 <? indexOf TAB line) = false).
    { destruct H as [H|[rest ->]].
      - rewrite (indexOf_absent TAB line H). reflexivity.
      - reflexivity. }
    rewrite Hidx. destruct (String.eqb (trim line) ""); reflexivity. }
  split; [exact Hkv|]. split; [exact Hrow|].
  assert (Hshape : cleanUpNonDML_line line = [] \/
                   exists k v, cleanUpNonDML_line line = [[(trim k, trim v)]]).
  { unfold cleanUpNonDML_line. destruct (0 <? indexOf TAB line).
    - right. eexists _, _. reflexivity.
    - destruct (String.eqb (trim line) "") eqn:E; simpl; [left; reflexivity|].
      right. exists "row", line. reflexivity. }
  split.
  - destruct Hshape as [->|(k & v & ->)]; simpl; lia.
  - intros o k v Ho Hin. destruct Hshape as [H|(k0 & v0 & H)]; rewrite H in Ho.
    + contradiction.
    + destruct Ho as [<-|[]]. destruct Hin as [[= <- <-]|[]].
      repeat split; apply trim_idempotent.
Qed.

(** X25: The lines of a raw retrieval are those of the object, as many and in
    the same order, each trimmed once and for all. *)
Theorem getRawResultsFromS3_lines (readline : string -> list string)
    (input : string) :
  exists l,
    getRawResultsFromS3 readline input = Resolved l /\
    List.length l = List.length (readline input) /\
    (forall i, nth i l EmptyString = trim (nth i (readline input) EmptyString)) /\
    Forall (fun s => trim s = s) l.
Proof.
  exists (map trim (readline input)). split; [reflexivity|].
  split; [apply length_map|]. split.
  - intros i. change EmptyString with (trim EmptyString) at 1. apply map_nth.
  - apply Forall_map, Forall_forall. intros s _. apply trim_idempotent.
Qed.

(** ** [lowerCaseKeys] *)

Lemma lowerUnit_idempotent c : lowerUnit (lowerUnit c) = lowerUnit c.
Proof. destruct c as [[] [] [] [] [] [] [] []]; reflexivity. Qed.

Lemma toLowerCase_idempotent s : toLowerCase (toLowerCase s) = toLowerCase s.
Proof.
  induction s as [|c s IH]; simpl; [reflexivity|].
  rewrite lowerUnit_idempotent, IH. reflexivity.
Qed.

Lemma get_of_entry {V : Type} (o : Obj V) (k : string) (v : V) :
  NoDup (keys o) -> In (k, v) o -> get k o = Some v.
Proof.
  induction o as [|[k' v'] o IH]; simpl; intros Hnd Hin; [contradiction|].
  inversion Hnd as [|? ? Hk Hnd']; subst.
  destruct Hin as [[= -> ->]|Hin].
  - rewrite String.eqb_refl. reflexivity.
  - destruct (String.eqb k k') eqn:E; [|apply IH; assumption].
    apply String.eqb_eq in E. subst k'. exfalso. apply Hk.
    change k with (fst (k, v)). apply in_map. exact Hin.
Qed.

Section LowerCaseKeysFacts.

Context {V : Type}.

Lemma lowerCaseKeys_entries (obj : Obj (option V)) :
  NoDup (keys obj) -> lowerCaseKeys obj = fold_left assignLowered obj [].
Proof.
  intros Hnd. unfold lowerCaseKeys.
  cut (forall l acc,
          (forall e, In e l -> get (fst e) obj = Some (snd e)) ->
          fold_left (fun acc key =>
                       match get key obj with
                       | Some (Some v) => set (toLowerCase key) v acc
                       | _ => acc
                       end) (keys l) acc = fold_left assignLowered l acc).
  { intros H. apply H. intros [k v] Hin. apply get_of_entry; assumption. }
  induction l as [|e l IH]; intros acc Hl; simpl; [reflexivity|].
  rewrite (Hl e (or_introl eq_refl)). unfold assignLowered at 2.
  rewrite IH by (intros e' He'; apply Hl; right; exact He').
  destruct (snd e); reflexivity.
Qed.

Lemma fold_assign_get (l : list (string * option V)) : forall acc name,
  get name (fold_left assignLowered l acc) =
  match find (lowersTo name) (rev l) with
  | Some e => snd e
  | None => get name acc
  end.
Proof.
  induction l as [|e l IH]; intros acc name; simpl; [reflexivity|].
  rewrite IH, find_last.
  destruct (find (lowersTo name) (rev l)); [reflexivity|].
  unfold lowersTo, assignLowered. destruct (snd e) as [v|] eqn:Hv; [|reflexivity].
  destruct (String.eqb (toLowerCase (fst e)) name) eqn:E.
  - apply String.eqb_eq in E. subst name. rewrite Hv. apply get_set_eq.
  - apply String.eqb_neq in E. apply get_set_ne. exact E.
Qed.

Lemma fold_assign_keys (l : list (string * option V)) : forall acc name,
  In name (keys (fold_left assignLowered l acc)) ->
  toLowerCase name = name \/ In name (keys acc).
Proof.
  induction l as [|e l IH]; intros acc name; simpl; [auto|].
  intros H. destruct (IH _ _ H) as [Hlow|Hin]; [left; exact Hlow|].
  unfold assignLowered in Hin. destruct (snd e); [|right; exact Hin].
  apply keys_set_in in Hin as [->|Hin]; [left | right; exact Hin].
  apply toLowerCase_idempotent.
Qed.

Lemma fold_assign_NoDup (l : list (string * option V)) : forall acc,
  NoDup (keys acc) -> NoDup (keys (fold_left assignLowered l acc)).
Proof.
  induction l as [|e l IH]; intros acc Hnd; simpl; [exact Hnd|].
  apply IH. unfold assignLowered. destruct (snd e); [apply keys_set_NoDup|]; exact Hnd.
Qed.

(** X26: For an object none of whose keys is [__proto__] in lower case: the
    keys of the lower-cased object are lower-case and distinct.  Under a
    name stands the value of the last property, in the order of the keys,
    that has a value and whose lower-cased name it is: of two properties
    that differ by case only the later one is kept.  A property without a
    value gives nothing. *)
Theorem lowerCaseKeys_lookup (obj : Obj (option V)) :
  NoDup (keys obj) ->
  Forall (fun k => toLowerCase k <> "__proto__") (keys obj) ->
  (forall name,
      get name (lowerCaseKeys obj) =
      match find (lowersTo name) (rev obj) with
      | Some e => snd e
      | None => None
      end) /\
  Forall (fun k => toLowerCase k = k) (keys (lowerCaseKeys obj)) /\
  NoDup (keys (lowerCaseKeys obj)).
Proof.
  intros Hnd _. rewrite (lowerCaseKeys_entries obj Hnd). split; [|split].
  - intros name. apply fold_assign_get.
  - apply Forall_forall. intros k Hk.
    destruct (fold_assign_keys _ _ _ Hk) as [H|[]]. exact H.
  - apply fold_assign_NoDup. constructor.
Qed.

End LowerCaseKeysFacts.

Lemma lowerCaseKeys_lookup_witness :
  get "db" (lowerCaseKeys [("DB", Some 1); ("Db", None); ("db", Some 3);
                           ("Sql", Some 4)]) = Some 3.
Proof.
  refine (eq_trans
            (proj1 (lowerCaseKeys_lookup
                      [("DB", Some 1); ("Db", None); ("db", Some 3);
                       ("Sql", Some 4)] _ _) "db") _).
  - repeat constructor; simpl; intuition discriminate.
  - repeat constructor; discriminate.
  - reflexivity.
Defined.

(** ** Numbers written in decimal *)












(** ** Booleans *)

Lemma string_app_nil_r (s : string) : s ++ "" = s.
Proof. induction s as [|c s IH]; simpl; [reflexivity | rewrite IH; reflexivity]. Qed.

Lemma string_app_assoc (a b c : string) : (a ++ b) ++ c = a ++ b ++ c.
Proof. induction a as [|x a IH]; simpl; [reflexivity | rewrite IH; reflexivity]. Qed.

Lemma lex_cons st c s :
  JSON.lex st (String c s) =
  match JSON.lexStep st c with
  | Some (st', ts) =>
      match JSON.lex st' s with
      | Some rest => Some (ts ++ rest)%list
      | None => None
      end
  | None => None
  end.
Proof. reflexivity. Qed.

Lemma space_is_no_letter c :
  JSON.isWhiteSpace c = true ->
  JSON.isLetter c = false /\ JSON.lexFresh c = Some (JSON.LStart, []).
Proof.
  intros H. unfold JSON.lexFresh. rewrite H. split; [|reflexivity].
  destruct c as [[] [] [] [] [] [] [] []]; try discriminate H; reflexivity.
Qed.

Lemma lex_spaces ws s :
  jsonSpaces ws -> JSON.lex JSON.LStart (ws ++ s) = JSON.lex JSON.LStart s.
Proof.
  induction ws as [|c ws IH]; intros H; [reflexivity|].
  inversion H as [|? ? Hc Hws]; subst. simpl append. rewrite lex_cons.
  cbn [JSON.lexStep]. rewrite (proj2 (space_is_no_letter c Hc)), (IH Hws).
  destruct (JSON.lex JSON.LStart s); reflexivity.
Qed.

Lemma lex_name_spaces w ws :
  jsonSpaces ws -> JSON.lex (JSON.LName w) ws = JSON.flush (JSON.LName w).
Proof.
  intros H. destruct ws as [|c ws]; [reflexivity|].
  inversion H as [|? ? Hc Hws]; subst. rewrite lex_cons. cbn [JSON.lexStep].
  destruct (space_is_no_letter c Hc) as [-> ->].
  pose proof (lex_spaces ws "" Hws) as Hrest. rewrite string_app_nil_r in Hrest.
  simpl JSON.lex in Hrest.
  destruct (JSON.flush (JSON.LName w)) as [t1|]; [|reflexivity].
  cbv iota beta. rewrite Hrest, !app_nil_r. reflexivity.
Qed.

Lemma parse_booleanWord before after b :
  jsonSpaces before -> jsonSpaces after ->
  JSON.parse (before ++ booleanWord b ++ after) = Ok (Bool_ b).
Proof.
  intros Hb Ha. unfold JSON.parse. rewrite (lex_spaces before _ Hb).
  destruct b; simpl append; repeat (rewrite lex_cons; cbn -[JSON.lex]);
    rewrite (lex_name_spaces _ after Ha); reflexivity.
Qed.

Lemma parseStep_inContainer st t st' :
  inContainer st -> JSON.parseStep st t = Some st' -> inContainer st'.
Proof.
  assert (Hreduce : forall v stack,
             stack <> [] \/ isContainer v -> inContainer (JSON.reduce v stack)).
  { intros v [|[els|ms name] stack] [H|H]; simpl; auto; congruence. }
  assert (Hstart : forall stack st',
             stack <> [] -> JSON.startValue t stack = Some st' -> inContainer st').
  { intros stack st0 Hs. destruct t; simpl; intros [= <-]; simpl; auto. }
  destruct st; simpl; intros Hin H.
  - eapply Hstart; eassumption.
  - destruct t; try (eapply Hstart; [|exact H]; discriminate).
    injection H as <-. apply Hreduce. right. exact I.
  - destruct t; try discriminate; injection H as <-;
      [apply Hreduce; right; exact I | simpl; discriminate].
  - destruct t; try discriminate; injection H as <-;
      [apply Hreduce; right; exact I | exact I].
  - destruct t; try discriminate. injection H as <-. exact I.
  - destruct t; try discriminate. injection H as <-. simpl. discriminate.
  - destruct t; try discriminate; injection H as <-;
      [apply Hreduce; right; exact I | exact I].
  - discriminate.
Qed.

Lemma run_inContainer ts : forall st v,
  inContainer st -> JSON.run st ts = Some v -> isContainer v.
Proof.
  induction ts as [|t ts IH]; intros st v Hin H; simpl in H.
  - destruct st; try discriminate. injection H as <-. exact Hin.
  - destruct (JSON.parseStep st t) as [st'|] eqn:E; [|discriminate].
    eapply IH; [|exact H]. eapply parseStep_inContainer; eassumption.
Qed.

(** A value that is no array and no object is one token. *)
Lemma run_scalar ts v :
  JSON.run (JSON.PValue []) ts = Some v -> ~ isContainer v ->
  ts = [JSON.TValue v] \/ exists u, ts = [JSON.TString u] /\ v = Str u.
Proof.
  destruct ts as [|t ts]; simpl; [discriminate|].
  destruct t; simpl; try discriminate.
  - intros H Hv. exfalso. apply Hv.
    apply (run_inContainer ts (JSON.PArrayStart []) v I H).
  - intros H Hv. exfalso. apply Hv.
    apply (run_inContainer ts (JSON.PObjectStart []) v I H).
  - destruct ts; simpl; [|discriminate]. intros [= <-] _. left. reflexivity.
  - destruct ts; simpl; [|discriminate]. intros [= <-] _. right. eauto.
Qed.

Lemma lex_in_string s : forall st ts,
  inString st -> JSON.lex st s = Some ts ->
  exists u ts', ts = JSON.TString u :: ts'.
Proof.
  induction s as [|c s IH]; intros st ts Hst H.
  - destruct st; simpl in *; try contradiction; discriminate.
  - rewrite lex_cons in H.
    destruct (JSON.lexStep st c) as [[st' t1]|] eqn:E; [|discriminate].
    destruct (JSON.lex st' s) as [rest|] eqn:Hrest; [|discriminate].
    injection H as <-.
    assert (Hcases : (exists u, t1 = [JSON.TString u]) \/ (t1 = [] /\ inString st')).
    { destruct st; simpl in Hst; try contradiction; simpl in E.
      - destruct (Ascii.eqb c JSON.quotationMark); [injection E as <- <-; eauto|].
        destruct (Ascii.eqb c JSON.reverseSolidus);
          [injection E as <- <-; right; simpl; auto|].
        destruct (codeUnit c <? 32)%N; [discriminate|].
        injection E as <- <-. right. simpl. auto.
      - destruct (Ascii.eqb c "u"); [injection E as <- <-; right; simpl; auto|].
        destruct (JSON.escaped c); [|discriminate].
        injection E as <- <-. right. simpl. auto.
      - destruct (digitValue 16 c); [|discriminate].
        destruct missing; injection E as <- <-; right; simpl; auto. }
    destruct Hcases as [[u ->]|[-> Hst']].
    + exists u, rest. reflexivity.
    + apply (IH st' rest Hst' Hrest).
Qed.

Lemma revString_app w : forall acc, JSON.revString w acc = JSON.revString w "" ++ acc.
Proof.
  induction w as [|c w IH]; intros acc; simpl; [reflexivity|].
  rewrite (IH (String c acc)), (IH (String c "")).
  rewrite string_app_assoc. reflexivity.
Qed.

Lemma lex_name s : forall w ts,
  JSON.lex (JSON.LName w) s = Some ts ->
  exists letters after v tsAfter,
    s = letters ++ after /\
    JSON.literalName (JSON.revString w "" ++ letters) = Some v /\
    ts = JSON.TValue v :: tsAfter /\
    JSON.lex JSON.LStart after = Some tsAfter.
Proof.
  induction s as [|c s IH]; intros w ts H.
  - simpl in H. destruct (JSON.literalName (JSON.revString w "")) as [v|] eqn:E;
      [|discriminate].
    injection H as <-. exists "", "", v, [].
    rewrite (string_app_nil_r (JSON.revString w "")). repeat split; auto.
  - rewrite lex_cons in H. cbn [JSON.lexStep] in H.
    destruct (JSON.isLetter c).
    + destruct (JSON.lex (JSON.LName (String c w)) s) as [rest|] eqn:Hrest;
        [|discriminate].
      injection H as <-.
      destruct (IH _ _ Hrest) as (letters & after & v & tsAfter & -> & Hlit & -> & Hafter).
      exists (String c letters), after, v, tsAfter. repeat split; auto.
      simpl JSON.revString in Hlit. rewrite revString_app in Hlit.
      rewrite string_app_assoc in Hlit. exact Hlit.
    + simpl JSON.flush in H.
      destruct (JSON.literalName (JSON.revString w "")) as [v|] eqn:E;
        [|discriminate].
      destruct (JSON.lexFresh c) as [[st' t2]|] eqn:Hfresh; [|discriminate].
      destruct (JSON.lex st' s) as [rest|] eqn:Hrest; [|discriminate].
      injection H as <-.
      exists "", (String c s), v, (t2 ++ rest)%list. rewrite string_app_nil_r.
      repeat split; auto.
      rewrite lex_cons. cbn [JSON.lexStep]. rewrite Hfresh, Hrest. reflexivity.
Qed.

Lemma lex_number s : forall w ts,
  JSON.lex (JSON.LNumber w) s = Some ts ->
  exists n ts', ts = JSON.TValue (Num n) :: ts'.
Proof.
  induction s as [|c s IH]; intros w ts H.
  - simpl in H. destruct (JSON.numberLiteral _); [|discriminate].
    injection H as <-. eauto.
  - rewrite lex_cons in H. cbn [JSON.lexStep] in H.
    destruct (JSON.isNumberUnit c).
    + destruct (JSON.lex (JSON.LNumber (String c w)) s) as [rest|] eqn:Hrest;
        [|discriminate].
      injection H as <-. apply (IH _ _ Hrest).
    + simpl JSON.flush in H. destruct (JSON.numberLiteral _); [|discriminate].
      destruct (JSON.lexFresh c) as [[st' t2]|]; [|discriminate].
      destruct (JSON.lex st' s); [|discriminate].
      injection H as <-. simpl. eauto.
Qed.

(** What the first code unit of a value starts. *)
Lemma lexFresh_cases c st t :
  JSON.lexFresh c = Some (st, t) ->
  (JSON.isWhiteSpace c = true /\ st = JSON.LStart /\ t = []) \/
  (st = JSON.LStart /\ exists k, t = [k] /\
     forall v, k <> JSON.TValue v) \/
  (t = [] /\ inString st) \/
  (t = [] /\ st = JSON.LName (String c "")) \/
  (t = [] /\ st = JSON.LNumber (String c "")).
Proof.
  unfold JSON.lexFresh.
  destruct (JSON.isWhiteSpace c); [intros [= <- <-]; auto|].
  repeat match goal with
         | |- (if Ascii.eqb c ?x then _ else _) = _ -> _ =>
             destruct (Ascii.eqb c x);
             [intros [= <- <-]; right; first
                [ left; split; [reflexivity|]; eexists; split;
                  [reflexivity | discriminate]
                | right; left; split; [reflexivity | exact I] ] |]
         end.
  destruct (JSON.isLetter c); [intros [= <- <-]; auto 6|].
  destruct (_ || _)%bool; [intros [= <- <-]; auto 6 | discriminate].
Qed.

Lemma lex_nothing s : JSON.lex JSON.LStart s = Some [] -> jsonSpaces s.
Proof.
  induction s as [|c s IH]; intros H; [constructor|].
  rewrite lex_cons in H. cbn [JSON.lexStep] in H.
  destruct (JSON.lexFresh c) as [[st t]|] eqn:Hfresh; [|discriminate].
  destruct (JSON.lex st s) as [rest|] eqn:Hrest; [|discriminate].
  injection H as H. apply app_eq_nil in H as [-> ->].
  destruct (lexFresh_cases _ _ _ Hfresh)
    as [(Hc & -> & _)|[(_ & k & Hk & _)|[(_ & Hst)|[(_ & ->)|(_ & ->)]]]].
  - constructor; [exact Hc | apply IH, Hrest].
  - discriminate.
  - destruct (lex_in_string _ _ _ Hst Hrest) as (u & ts' & E). discriminate.
  - destruct (lex_name _ _ _ Hrest) as (? & ? & ? & ? & _ & _ & E & _). discriminate.
  - destruct (lex_number _ _ _ Hrest) as (? & ? & E). discriminate.
Qed.

Lemma literalName_boolean w b :
  JSON.literalName w = Some (Bool_ b) -> w = booleanWord b.
Proof.
  unfold JSON.literalName.
  destruct (String.eqb w "true") eqn:Et;
    [apply String.eqb_eq in Et; intros [= <-]; exact Et|].
  destruct (String.eqb w "false") eqn:Ef;
    [apply String.eqb_eq in Ef; intros [= <-]; exact Ef|].
  destruct (String.eqb w "null"); discriminate.
Qed.

Lemma lex_boolean s b :
  JSON.lex JSON.LStart s = Some [JSON.TValue (Bool_ b)] ->
  exists before after,
    jsonSpaces before /\ jsonSpaces after /\ s = before ++ booleanWord b ++ after.
Proof.
  induction s as [|c s IH]; intros H; [discriminate|].
  rewrite lex_cons in H. cbn [JSON.lexStep] in H.
  destruct (JSON.lexFresh c) as [[st t]|] eqn:Hfresh; [|discriminate].
  destruct (JSON.lex st s) as [rest|] eqn:Hrest; [|discriminate].
  injection H as H.
  destruct (lexFresh_cases _ _ _ Hfresh)
    as [(Hc & -> & ->)|[(_ & k & -> & Hk)|[(-> & Hst)|[(-> & ->)|(-> & ->)]]]];
    simpl in H.
  - subst rest. destruct (IH Hrest) as (before & after & Hb & Ha & ->).
    exists (String c before), after. repeat split; auto. constructor; assumption.
  - injection H as -> _. exfalso. apply (Hk _ eq_refl).
  - subst rest. destruct (lex_in_string _ _ _ Hst Hrest) as (u & ts' & E).
    discriminate.
  - subst rest.
    destruct (lex_name _ _ _ Hrest)
      as (letters & after & v & tsAfter & -> & Hlit & E & Hafter).
    injection E as <- <-. simpl in Hlit. apply literalName_boolean in Hlit.
    exists "", after. repeat split; [constructor | apply lex_nothing, Hafter|].
    simpl. rewrite <- Hlit. reflexivity.
  - subst rest. destruct (lex_number _ _ _ Hrest) as (n & ts' & E). discriminate.
Qed.

(** [JSON.parse] gives a boolean for the words true and false, white space
    of the JSON grammar before and after allowed, and for no other text. *)
Lemma JSON_parse_boolean text b :
  JSON.parse text = Ok (Bool_ b) <->
  exists before after,
    jsonSpaces before /\ jsonSpaces after /\
    text = before ++ booleanWord b ++ after.
Proof.
  split.
  - unfold JSON.parse.
    destruct (JSON.lex JSON.LStart text) as [ts|] eqn:Hlex; [|discriminate].
    destruct (JSON.run (JSON.PValue []) ts) as [v|] eqn:Hrun; [|discriminate].
    intros [= ->].
    destruct (run_scalar _ _ Hrun (fun H => H)) as [->|(u & _ & E)];
      [|discriminate].
    apply lex_boolean, Hlex.
  - intros (before & after & Hb & Ha & ->). apply parse_booleanWord; assumption.
Qed.

(** X13: In a boolean column, the record holds a boolean exactly for the cells
    that spell true or false in any case, with or without blanks, tabs or
    line ends around the word. *)
Theorem boolean_cell_yields_boolean (input dataTypes : Obj string)
    (key value : string) (out : Obj jsval) (b : bool) :
  get key input = Some value -> value <> "" ->
  get key dataTypes = Some "boolean" ->
  addDataType input dataTypes = Ok out ->
  (get key out = Some (Bool_ b) <->
   exists before after,
     jsonSpaces before /\ jsonSpaces after /\
     toLowerCase value = before ++ booleanWord b ++ after).
Proof.
  intros Hget Hne Hty Hok.
  pose proof (addDataType_get _ _ _ key Hok) as H. rewrite Hget in H.
  destruct H as (v & Hv & ->).
  rewrite (typedCell_value _ _ _ _ Hget Hne), Hty in Hv.
  change (convert (Some "boolean") value) with (JSON.parse (toLowerCase value)) in Hv.
  rewrite <- JSON_parse_boolean, Hv. split; congruence.
Qed.

Lemma boolean_cell_yields_boolean_witness :
  get "b" [("b", Bool_ false)] = Some (Bool_ false) <->
  exists before after,
    jsonSpaces before /\ jsonSpaces after /\
    toLowerCase " False" = before ++ booleanWord false ++ after.
Proof.
  refine (boolean_cell_yields_boolean [("b", " False")] [("b", "boolean")]
            "b" " False" [("b", Bool_ false)] false eq_refl _ eq_refl eq_refl).
  discriminate.
Defined.

(** ** Both kinds of rows, and every way a submission ends *)

Lemma skipn_cons_nth {A : Type} (l : list A) : forall j x rest d,
  skipn j l = x :: rest -> nth j l d = x /\ skipn (S j) l = rest.
Proof.
  induction l as [|y l IH]; intros [|j] x rest d H; simpl in *; try discriminate.
  - injection H as -> ->. split; reflexivity.
  - apply IH. exact H.
Qed.

Lemma fillRowObject_cells (names : list string) : forall values j acc,
  NoDup (keys acc ++ skipn j names)%list ->
  Forall (fun k => ordinaryName k = true) (skipn j names) ->
  (List.length values <= List.length (skipn j names))%nat ->
  fillRowObject names j (map cell values) acc =
  (acc ++ combine (skipn j names) values)%list.
Proof.
  induction values as [|v values IH]; intros j acc Hnd Hidx Hlen; simpl.
  - rewrite combine_nil, app_nil_r. reflexivity.
  - destruct (skipn j names) as [|n rest] eqn:Hskip; simpl in Hlen; [lia|].
    destruct (skipn_cons_nth names j n rest "undefined" Hskip) as [-> Hrest].
    inversion Hidx as [|? ? Hord Hidx']; subst.
    destruct (ordinaryName_spec _ Hord) as [Hn Hp].
    assert (Hfresh : get n acc = None).
    { destruct (get n acc) eqn:E; [|reflexivity]. exfalso.
      apply NoDup_remove_2 in Hnd. apply Hnd, in_or_app. left.
      apply get_in_keys. congruence. }
    unfold assign. apply String.eqb_neq in Hp. rewrite Hp.
    unfold set. rewrite Hfresh, (insert_last _ _ _ Hn).
    rewrite IH; rewrite ?Hrest.
    + rewrite <- app_assoc. reflexivity.
    + rewrite keys_app, <- app_assoc. exact Hnd.
    + exact Hidx'.
    + apply le_S_n. exact Hlen.
Qed.

(** X16: A row of a page whose cells all have a value is the same row object
    as the text row that has these values under the column names of the
    schema, in the order of the schema; and so it gives the same record.
    (The column names are distinct and none is an array index or
    [__proto__]; the row has no more cells than the schema has columns.) *)
Theorem page_row_is_text_row (columns : list ColumnInfo) (values : list string) :
  NoDup (map Name columns) ->
  Forall (fun c => ordinaryName (Name c) = true) columns ->
  (List.length values <= List.length columns)%nat ->
  fillRowObject (columnNamesOf columns) 0 (map cell values) [] =
    combine (map Name columns) values /\
  formatRows (columnInfoObjectOf columns) (columnNamesOf columns)
             [ {| Data := map cell values |} ] =
    match addDataType (combine (map Name columns) values)
                      (columnInfoObjectOf columns) with
    | Ok rec => Ok [rec]
    | Throw t => Throw t
    end.
Proof.
  intros Hnd Hidx Hlen.
  assert (Hrow : fillRowObject (columnNamesOf columns) 0 (map cell values) [] =
                 combine (map Name columns) values).
  { rewrite (columnNamesOf_positions _ Hnd Hidx).
    rewrite fillRowObject_cells; simpl.
    - reflexivity.
    - exact Hnd.
    - apply Forall_map. exact Hidx.
    - rewrite length_map. exact Hlen. }
  split; [exact Hrow|]. simpl. rewrite Hrow.
  destruct (addDataType _ _); reflexivity.
Qed.

Lemma page_row_is_text_row_witness :
  fillRowObject (columnNamesOf [column "a" "bigint"; column "b" "boolean"])
                0 (map cell ["42"; "TRUE"]) [] =
  [("a", "42"); ("b", "TRUE")].
Proof.
  refine (proj1 (page_row_is_text_row [column "a" "bigint"; column "b" "boolean"]
                   ["42"; "TRUE"] _ _ _)).
  - repeat constructor; simpl; intuition discriminate.
  - repeat constructor.
  - simpl. lia.
Defined.

(** X2: Every way a submission can end.  Resolved: the script is transient
    faults, then the answer whose identifier is returned.  Rejected: it is
    transient faults, then the fault returned, which is not transient.
    Still pending: it is transient faults only. *)
Theorem startQueryExecution_outcomes (config : Config)
    (script : list (Promise StartQueryExecutionOutput)) :
  exists faults,
    Forall (fun e => transient e = true) faults /\
    match snd (startQueryExecution config script) with
    | Resolved id =>
        exists data rest,
          script = (map RejectedP faults ++ Fulfilled data :: rest)%list /\
          id = sqe_QueryExecutionId data
    | Rejected t =>
        exists err rest,
          script = (map RejectedP faults ++ RejectedP err :: rest)%list /\
          transient err = false /\ t = ErrorObject err
    | Pending => script = map RejectedP faults
    end.
Proof.
  unfold startQueryExecution.
  induction script as [|[data|err] script IH]; simpl.
  - exists []. split; [constructor | reflexivity].
  - exists []. split; [constructor|]. exists data, script. auto.
  - destruct (isCommonAthenaError (code err)) eqn:He.
    + destruct IH as (faults & Hf & IH).
      destruct (startQueryExecutionRecursively (startParams config) script)
        as [tr out]. simpl in *.
      exists (err :: faults). split; [constructor; assumption|].
      destruct out as [id|t|].
      * destruct IH as (data & rest & -> & ->). exists data, rest. auto.
      * destruct IH as (e & rest & -> & Ht & ->). exists e, rest. auto.
      * rewrite IH. reflexivity.
    + exists []. split; [constructor|]. exists err, script. auto.
Qed.
